(** * py27maasclient: a shallow embedding of the MAAS client

    The development follows [py27maasclient/__init__.py]: the response
    decoder [_get_json], the [Client] with its HTTP verb wrappers and hostname
    lookup, and the [Machine] handle with its [poll] loop.

    Python values decoded from JSON are an inductive type; exceptions are
    values of a sum; the effects of the program (HTTP requests, reading the
    clock, sleeping) are appended to an event trace, and the outside world
    (the HTTP session, the clock, the JSON library) is a set of oracles that
    see that trace. *)

From Stdlib Require Import String Ascii List Bool ZArith QArith Qminmax Qround.
From Stdlib Require Import Lia Lqa.
Import ListNotations.

Set Warnings "-register-all".
Open Scope string_scope.

(** ** Python strings *)

Module PyString.

(** [s.partition(sep)] for a one-character separator: the text before the
    first separator, the separator, the text after it; when the separator
    is absent, the whole string and two empty strings. *)
Fixpoint partition (sep : ascii) (s : string) : string * string * string :=
  match s with
  | EmptyString => (EmptyString, EmptyString, EmptyString)
  | String c rest =>
      if Ascii.eqb c sep then (EmptyString, String sep EmptyString, rest)
      else
        match partition sep rest with
        | (before, found, after) => (String c before, found, after)
        end
  end.

(** [s.lstrip(c)] for a one-character set. *)
Fixpoint lstrip (c : ascii) (s : string) : string :=
  match s with
  | EmptyString => EmptyString
  | String d rest => if Ascii.eqb d c then lstrip c rest else s
  end.

(** [s.rstrip(c)] for a one-character set. *)
Fixpoint rstrip (c : ascii) (s : string) : string :=
  match s with
  | EmptyString => EmptyString
  | String d rest =>
      match rstrip c rest with
      | EmptyString => if Ascii.eqb d c then EmptyString else String d EmptyString
      | kept => String d kept
      end
  end.

(** [s.split(sep)] for a one-character separator. *)
Fixpoint split (sep : ascii) (s : string) : list string :=
  match s with
  | EmptyString => [EmptyString]
  | String c rest =>
      if Ascii.eqb c sep then EmptyString :: split sep rest
      else
        match split sep rest with
        | [] => [String c EmptyString]
        | w :: ws => String c w :: ws
        end
  end.

(** ASCII lower-casing, as used by case-insensitive header lookup. *)
Definition lower_ascii (c : ascii) : ascii :=
  let n := nat_of_ascii c in
  if (65 <=? n)%nat && (n <=? 90)%nat then ascii_of_nat (n + 32) else c.

Fixpoint lower (s : string) : string :=
  match s with
  | EmptyString => EmptyString
  | String c rest => String (lower_ascii c) (lower rest)
  end.

End PyString.

(** ** Python values *)

(** The values [json.loads] produces, which are also the values that flow
    through the client ([system_id], [status_name], form fields).  A float is
    abstracted to a rational. *)
Inductive pyval : Type :=
| PNone
| PBool (b : bool)
| PInt (z : Z)
| PFloat (q : Q)
| PStr (s : string)
| PList (l : list pyval)
| PDict (kv : list (string * pyval)).

(** A caller-supplied collection of status names, the [return_on] and
    [continue_on] arguments of [poll]: a hashed collection ([set],
    [frozenset]) or a sequence ([list], [tuple]). *)
Inductive container : Type :=
| PySet (l : list string)
| PySeq (l : list string).

(** HTTP headers, as [requests] gives them: a case-insensitive dictionary. *)
Definition headers : Type := list (string * string).

(** A Python float: a finite number (its value, a rational), an infinity, or
    not a number. *)
Inductive pyfloat : Type :=
| FFin (q : Q)
| FPosInf
| FNegInf
| FNaN.

(** A Python number: an [int], of any size, or a [float]. *)
Inductive pynum : Type :=
| NInt (z : Z)
| NFloat (x : pyfloat).

(** An argument of a [%]-formatted message. *)
Inductive fmt_arg : Type :=
| AInt (z : Z)
| ANum (q : Q)
| ANumber (x : pynum)
| AStr (s : string)
| AVal (v : pyval)
| AHeaders (h : headers)
| AContainer (c : container).

(** The text of an exception, [fmt % args].  The format string and its
    arguments are kept apart: how a dictionary or a set prints is the
    interpreter's business. *)
Record message : Type := Msg { fmt : string; args : list fmt_arg }.

(** The exceptions the client can end with.  [MAASError] is the only class
    the module declares; the others are the interpreter's.  [External] is
    whatever the HTTP session raises (connection errors and the like). *)
Inductive exn : Type :=
| MAASError (m : message)
| AssertionError
| KeyError
| IndexError
| TypeError
| ValueError
| External (name : string).

(** The class of an exception, what an [except] clause matches on. *)
Inductive exn_class : Type :=
| ClsMAASError
| ClsAssertionError
| ClsKeyError
| ClsIndexError
| ClsTypeError
| ClsValueError
| ClsExternal (name : string).

Definition class_of (e : exn) : exn_class :=
  match e with
  | MAASError _ => ClsMAASError
  | AssertionError => ClsAssertionError
  | KeyError => ClsKeyError
  | IndexError => ClsIndexError
  | TypeError => ClsTypeError
  | ValueError => ClsValueError
  | External name => ClsExternal name
  end.

(** The result of a call: an exception or a value. *)
Definition result (A : Type) : Type := (exn + A)%type.

Module Py.

(** Truth value of an object, as [if obj:] tests it. *)
Definition truthy (v : pyval) : bool :=
  match v with
  | PNone => false
  | PBool b => b
  | PInt z => negb (z =? 0)%Z
  | PFloat q => negb (Qeq_bool q 0)
  | PStr s => negb (String.eqb s "")
  | PList l => match l with [] => false | _ => true end
  | PDict kv => match kv with [] => false | _ => true end
  end.

(** [len(obj)]. *)
Definition len (v : pyval) : result Z :=
  match v with
  | PStr s => inr (Z.of_nat (String.length s))
  | PList l => inr (Z.of_nat (List.length l))
  | PDict kv => inr (Z.of_nat (List.length kv))
  | _ => inl TypeError
  end.

Fixpoint lookup (k : string) (kv : list (string * pyval)) : option pyval :=
  match kv with
  | [] => None
  | (k', v) :: rest => if String.eqb k' k then Some v else lookup k rest
  end.

(** [obj[key]] with a string key. *)
Definition getitem_str (v : pyval) (k : string) : result pyval :=
  match v with
  | PDict kv =>
      match lookup k kv with
      | Some x => inr x
      | None => inl KeyError
      end
  | _ => inl TypeError
  end.

(** [obj[0]]. *)
Definition getitem_0 (v : pyval) : result pyval :=
  match v with
  | PList l => match l with x :: _ => inr x | [] => inl IndexError end
  | PStr s =>
      match s with
      | String c _ => inr (PStr (String c EmptyString))
      | EmptyString => inl IndexError
      end
  | PDict _ => inl KeyError
  | _ => inl TypeError
  end.

Definition hashable (v : pyval) : bool :=
  match v with
  | PList _ | PDict _ => false
  | _ => true
  end.

Definition mem (s : string) (l : list string) : bool :=
  existsb (String.eqb s) l.

(** [obj in coll] for a collection of strings: only a string equals a
    string; looking an unhashable object up in a set raises. *)
Definition contains (c : container) (v : pyval) : result bool :=
  match c with
  | PySeq l =>
      match v with
      | PStr s => inr (mem s l)
      | _ => inr false
      end
  | PySet l =>
      match v with
      | PStr s => inr (mem s l)
      | _ => if hashable v then inr false else inl TypeError
      end
  end.

End Py.

(** ** Responses and the decoder *)

(** What the client reads of a [requests] response.  [ok] is the library's
    verdict on the status code. *)
Record response : Type := Response {
  status_code : Z;
  resp_headers : headers;
  text : string;
  ok : bool
}.

(** [headers.get(name)]: the value of the first header whose name matches,
    whatever the case of its letters. *)
Fixpoint headers_get (h : headers) (name : string) : option string :=
  match h with
  | [] => None
  | (k, v) :: rest =>
      if String.eqb (PyString.lower k) (PyString.lower name) then Some v
      else headers_get rest name
  end.

Definition msg_bad_status (res : response) : message :=
  Msg "status=%s content=%s" [AInt (status_code res); AStr (text res)].

Definition msg_non_json (res : response) : message :=
  Msg "unexpected non-json response: status=%s headers=%s content=%s"
      [AInt (status_code res); AHeaders (resp_headers res); AStr (text res)].

Definition msg_parse_failed (res : response) : message :=
  Msg "failed to parse json: status=%s headers=%s content=%s"
      [AInt (status_code res); AHeaders (resp_headers res); AStr (text res)].

(** The media-type test of [_get_json]:
    [not ct or ct.partition(';')[0] != 'application/json']. *)
Definition not_json_content_type (ct : option string) : bool :=
  match ct with
  | None => true
  | Some s =>
      if String.eqb s "" then true
      else
        negb (String.eqb (fst (fst (PyString.partition ";" s)))
                         "application/json")
  end.

Section Decoder.

(** [json.loads]: [None] stands for its [ValueError]. *)
Variable json_loads : string -> option pyval.

Definition _get_json (res : response) (ok_check : bool) : result pyval :=
  if ok_check && negb (ok res) then inl (MAASError (msg_bad_status res))
  else
    let content := text res in
    let ct := headers_get (resp_headers res) "content-type" in
    if not_json_content_type ct then inl (MAASError (msg_non_json res))
    else
      match json_loads content with
      | Some obj => inr obj
      | None => inl (MAASError (msg_parse_failed res))
      end.

End Decoder.

(** ** The outside world *)

Inductive method : Type := GET | PUT | POST | DELETE.

(** The [data] argument of a request: absent, a list of pairs (repeated keys
    allowed) or a dictionary. *)
Inductive form : Type :=
| NoData
| Pairs (fields : list (string * pyval))
| Dict (fields : list (string * pyval)).

Record request : Type := Request {
  meth : method;
  req_url : string;
  req_headers : headers;
  req_data : form
}.

(** What the program does to the world, in the order it does it. *)
Inductive event : Type :=
| EvClock (t : Q)
| EvRequest (r : request)
| EvSleep (d : Z).

Definition trace : Type := list event.

(** The durations slept, in order. *)
Fixpoint sleeps (tr : trace) : list Z :=
  match tr with
  | [] => []
  | EvSleep d :: rest => d :: sleeps rest
  | _ :: rest => sleeps rest
  end.

(** The requests sent, in order. *)
Fixpoint requests (tr : trace) : list request :=
  match tr with
  | [] => []
  | EvRequest r :: rest => r :: requests rest
  | _ :: rest => requests rest
  end.

(** A computation with effects: it extends the trace and ends with a value
    or an exception. *)
Definition M (A : Type) : Type := trace -> result A * trace.

Definition ret {A} (a : A) : M A := fun tr => (inr a, tr).

Definition raise {A} (e : exn) : M A := fun tr => (inl e, tr).

Definition bind {A B} (c : M A) (k : A -> M B) : M B :=
  fun tr =>
    match c tr with
    | (inl e, tr') => (inl e, tr')
    | (inr a, tr') => k a tr'
    end.

Definition lift {A} (r : result A) : M A := fun tr => (r, tr).

Notation "x <- c ;; k" := (bind c (fun x => k))
  (at level 61, c at next level, right associativity).

Record Client : Type := MkClient {
  url : string;
  client_key : string;
  owner_key : string;
  owner_secret : string
}.

Record Machine : Type := MkMachine {
  client : Client;
  system_id : pyval
}.

(** The local variables of [poll].  Times are rationals: the rounding of
    floating-point sums is not modelled. *)
Record poll_locals : Type := PollLocals {
  wait_total : Q;
  backoff : Z
}.

(** How a run of the [poll] loop stands: it returned, it raised, or it is
    still looping (the iterations granted are used up). *)
Inductive poll_status : Type :=
| Returned
| Raised (e : exn)
| Looping.

Definition msg_unexpected_status (status : pyval) : message :=
  Msg "unexpected status: %s" [AVal status].

Definition msg_timeout (return_on : container) (timeout : Q) (status : pyval)
  : message :=
  Msg ("the machine did not reach the expected status %s within "
       ++ "the time limit %ds (the last status is %s)")
      [AContainer return_on; ANum timeout; AVal status].

Definition accept_json : headers := [("accept", "application/json")].

Section World.

(** The OAuth session: what it answers to a request, given all that
    happened before. *)
Variable session : trace -> request -> result response.

(** [time.time()]: the reading of the wall clock, given all that happened
    before. *)
Variable clock : trace -> Q.

Variable json_loads : string -> option pyval.

(** [repr] of a decoded value that is not a string. *)
Variable py_repr : pyval -> string.

(** ['%s' % v]. *)
Definition py_str (v : pyval) : string :=
  match v with
  | PStr s => s
  | _ => py_repr v
  end.

Definition send (r : request) : M response :=
  fun tr => (session tr r, (tr ++ [EvRequest r])%list).

Definition time_time : M Q :=
  fun tr => let t := clock tr in (inr t, (tr ++ [EvClock t])%list).

Definition time_sleep (d : Z) : M unit :=
  fun tr => (inr tt, (tr ++ [EvSleep d])%list).

(** *** Client *)

Definition Client_init (base api_key : string) : result Client :=
  match PyString.split ":" api_key with
  | [ck; okey; osecret] =>
      inr (MkClient (PyString.rstrip "/" base) ck okey osecret)
  | _ => inl ValueError
  end.

Definition _url (self : Client) (path : string) : string :=
  url self ++ "/" ++ PyString.lstrip "/" path.

Definition Client_get (self : Client) (path : string) : M response :=
  send (Request GET (_url self path) accept_json NoData).

Definition Client_put (self : Client) (path : string) (data : form)
  : M response :=
  send (Request PUT (_url self path) accept_json data).

Definition Client_post (self : Client) (path : string) (data : form)
  : M response :=
  send (Request POST (_url self path) accept_json data).

Definition Client_delete (self : Client) (path : string) : M response :=
  send (Request DELETE (_url self path) accept_json NoData).

Definition lookup_path (hostname : string) : string :=
  match PyString.partition "." hostname with
  | (short_hostname, _, domain) =>
      if String.eqb domain "" then "/nodes/?hostname=" ++ short_hostname
      else "/nodes/?hostname=" ++ short_hostname ++ "&domain=" ++ domain
  end.

(** The part of [get_node_id] after the response is decoded.  The [assert]
    statement is executed: the interpreter runs without [-O]. *)
Definition pick_node_id (nodes : pyval) : result pyval :=
  if Py.truthy nodes then
    match Py.len nodes with
    | inl e => inl e
    | inr n =>
        if (n =? 1)%Z then
          match Py.getitem_0 nodes with
          | inl e => inl e
          | inr node => Py.getitem_str node "system_id"
          end
        else inl AssertionError
    end
  else inr PNone.

Definition get_node_id (self : Client) (hostname : string) : M pyval :=
  res <- Client_get self (lookup_path hostname) ;;
  nodes <- lift (_get_json json_loads res false) ;;
  lift (pick_node_id nodes).

Definition get_machine (self : Client) (hostname : string)
  : M (option Machine) :=
  node_id <- get_node_id self hostname ;;
  if negb (Py.truthy node_id) then ret None
  else ret (Some (MkMachine self node_id)).

Definition enlist_data (hostname : string) (mac_addresses : list pyval)
    (power_type : pyval) (power_parameters : list (string * pyval))
  : list (string * pyval) :=
  match PyString.partition "." hostname with
  | (short_hostname, _, domain) =>
      ([("hostname", PStr short_hostname);
        ("architecture", PStr "amd64");
        ("power_type", power_type)]
       ++ (if String.eqb domain "" then [] else [("domain", PStr domain)])
       ++ map (fun i => ("mac_addresses", i)) mac_addresses
       ++ map (fun kv => (("power_parameters_" ++ fst kv)%string, snd kv))
              power_parameters)%list
  end.

Definition enlist_and_commission (self : Client) (hostname : string)
    (mac_addresses : list pyval) (power_type : pyval)
    (power_parameters : list (string * pyval)) : M (option Machine) :=
  let data :=
    enlist_data hostname mac_addresses power_type power_parameters in
  res <- Client_post self "/machines/" (Pairs data) ;;
  get_machine self hostname.

(** *** Machine *)

Definition machine_path (self : Machine) : string :=
  "/machines/" ++ py_str (system_id self) ++ "/".

Definition get_detail (self : Machine) : M pyval :=
  res <- Client_get (client self) (machine_path self) ;;
  lift (_get_json json_loads res true).

Definition commission (self : Machine) : M pyval :=
  res <- Client_post (client self)
           (machine_path self ++ "?op=commission") NoData ;;
  lift (_get_json json_loads res true).

Definition allocate (self : Machine) : M pyval :=
  let data := Dict [("system_id", system_id self)] in
  res <- Client_post (client self) "/machines/?op=allocate" data ;;
  lift (_get_json json_loads res true).

Definition deploy (self : Machine) : M pyval :=
  res <- Client_post (client self)
           (machine_path self ++ "?op=deploy") NoData ;;
  lift (_get_json json_loads res true).

Definition release (self : Machine) : M pyval :=
  res <- Client_post (client self)
           (machine_path self ++ "?op=release") NoData ;;
  lift (_get_json json_loads res true).

Definition Machine_delete (self : Machine) : M pyval :=
  res <- Client_delete (client self) (machine_path self) ;;
  lift (_get_json json_loads res true).

(** The status one iteration of [poll] fetches:
    [info = self.get_detail(); status = info['status_name']]. *)
Definition fetch_status (self : Machine) : M pyval :=
  info <- get_detail self ;;
  lift (Py.getitem_str info "status_name").

(** [wait_total > timeout]. *)
Definition timed_out (st : poll_locals) (timeout : Q) : bool :=
  negb (Qle_bool (wait_total st) timeout).

(** The [while True:] loop of [poll], run for at most [fuel] iterations
    from the local variables [st] and the trace [tr]. *)
Fixpoint poll_loop (fuel : nat) (self : Machine)
    (return_on continue_on : container) (timeout : Q)
    (st : poll_locals) (tr : trace) : poll_status * poll_locals * trace :=
  match fuel with
  | O => (Looping, st, tr)
  | S fuel' =>
      match time_time tr with
      | (inl e, tr1) => (Raised e, st, tr1)
      | (inr t, tr1) =>
          match fetch_status self tr1 with
          | (inl e, tr2) => (Raised e, st, tr2)
          | (inr status, tr2) =>
              match Py.contains return_on status with
              | inl e => (Raised e, st, tr2)
              | inr true => (Returned, st, tr2)
              | inr false =>
                  match Py.contains continue_on status with
                  | inl e => (Raised e, st, tr2)
                  | inr true =>
                      if timed_out st timeout then
                        (Raised (MAASError
                                   (msg_timeout return_on timeout status)),
                         st, tr2)
                      else
                        match time_time tr2 with
                        | (inl e, tr3) => (Raised e, st, tr3)
                        | (inr t', tr3) =>
                            let dt := Qmax (t' - t) 0 in
                            match time_sleep (backoff st) tr3 with
                            | (inl e, tr4) => (Raised e, st, tr4)
                            | (inr _, tr4) =>
                                poll_loop fuel' self return_on continue_on
                                  timeout
                                  (PollLocals
                                     (wait_total st
                                      + (dt + inject_Z (backoff st)))
                                     (Z.min 10 (backoff st * 2)))
                                  tr4
                            end
                        end
                  | inr false =>
                      (Raised (MAASError (msg_unexpected_status status)),
                       st, tr2)
                  end
              end
          end
      end
  end.

Definition poll_init : poll_locals := PollLocals 0 3.

(** [Machine.poll], granted [fuel] iterations. *)
Definition poll (fuel : nat) (self : Machine)
    (return_on continue_on : container) (timeout : Q) (tr : trace)
  : poll_status * poll_locals * trace :=
  poll_loop fuel self return_on continue_on timeout poll_init tr.

End World.

(** ** The interpreter's arithmetic *)

(** Rounding to binary64, the format of a Python float: to the nearest
    number with a significand of 53 bits, halves to the even one, with
    gradual underflow and overflow to infinity. *)
Module Float64.

(** The integer nearest to [n / d], a half going to the even one. *)
Definition rne (n : Z) (d : positive) : Z :=
  let q := (n / Zpos d)%Z in
  let r := (n mod Zpos d)%Z in
  match (2 * r ?= Zpos d)%Z with
  | Lt => q
  | Gt => (q + 1)%Z
  | Eq => if Z.even q then q else (q + 1)%Z
  end.

(** The integer part of the binary logarithm of [n / d]. *)
Definition ilog2 (n d : positive) : Z :=
  let l := (Z.log2 (Zpos n) - Z.log2 (Zpos d))%Z in
  if (if (0 <=? l)%Z then (Zpos d * 2 ^ l <=? Zpos n)%Z
      else (Zpos d <=? Zpos n * 2 ^ (- l))%Z)
  then l else (l - 1)%Z.

Definition round_pos (n d : positive) : pyfloat :=
  let e := Z.max (ilog2 n d - 52) (-1074) in
  if (0 <=? e)%Z then
    let m := rne (Zpos n) (d * Z.to_pos (2 ^ e)) in
    if (2 ^ 1024 <=? m * 2 ^ e)%Z then FPosInf
    else FFin (inject_Z (m * 2 ^ e))
  else
    let m := rne (Zpos n * 2 ^ (- e)) d in
    FFin (Qred (m # Z.to_pos (2 ^ (- e)))).

Definition neg (x : pyfloat) : pyfloat :=
  match x with
  | FFin q => FFin (- q)
  | FPosInf => FNegInf
  | FNegInf => FPosInf
  | FNaN => FNaN
  end.

Definition round (q : Q) : pyfloat :=
  match Qnum q with
  | Z0 => FFin 0
  | Zpos n => round_pos n (Qden q)
  | Zneg n => neg (round_pos n (Qden q))
  end.

(** The sum of two floats: the exact sum, rounded. *)
Definition add (a b : pyfloat) : pyfloat :=
  match a, b with
  | FNaN, _ | _, FNaN => FNaN
  | FPosInf, FNegInf | FNegInf, FPosInf => FNaN
  | FPosInf, _ | _, FPosInf => FPosInf
  | FNegInf, _ | _, FNegInf => FNegInf
  | FFin x, FFin y => round (x + y)
  end.

Definition sub (a b : pyfloat) : pyfloat := add a (neg b).

(** [a > b]; a comparison with not-a-number is false. *)
Definition gt (a b : pyfloat) : bool :=
  match a, b with
  | FNaN, _ | _, FNaN => false
  | FFin x, FFin y => negb (Qle_bool x y)
  | FPosInf, FPosInf => false
  | FPosInf, _ => true
  | FFin _, FNegInf => true
  | _, _ => false
  end.

End Float64.

(** The operations of [poll] on Python numbers. *)
Module PyNum.

(** The value of a number, an [int] taken as it is. *)
Definition value (x : pynum) : pyfloat :=
  match x with
  | NInt z => FFin (inject_Z z)
  | NFloat f => f
  end.

(** [float(x)]: an [int] too large for a float is refused. *)
Definition to_float (x : pynum) : result pyfloat :=
  match x with
  | NFloat f => inr f
  | NInt z =>
      match Float64.round (inject_Z z) with
      | FFin q => inr (FFin q)
      | _ => inl (External "OverflowError")
      end
  end.

(** [a + b]: exact on two [int]s, a float sum otherwise. *)
Definition add (a b : pynum) : result pynum :=
  match a, b with
  | NInt x, NInt y => inr (NInt (x + y))
  | _, _ =>
      match to_float a with
      | inl e => inl e
      | inr fa =>
          match to_float b with
          | inl e => inl e
          | inr fb => inr (NFloat (Float64.add fa fb))
          end
      end
  end.

(** [a > b]: numbers are compared by value, without rounding. *)
Definition gt (a b : pynum) : bool := Float64.gt (value a) (value b).

(** [max(x, 0)]: the first of the two unless the second is greater. *)
Definition max0 (x : pynum) : pynum :=
  if gt (NInt 0) x then NInt 0 else x.

End PyNum.

(** [poll] as the interpreter runs it: the timeout is any number, an
    infinity and not-a-number included, [wait_total] is an [int] until a
    float is added to it, and the sums of floats are rounded.  [poll_loop]
    above runs the same loop on exact rationals. *)
Module Interp.

Record locals : Type := Locals {
  wait_total : pynum;
  backoff : Z
}.

Inductive iteration : Type :=
| Leave (r : poll_status) (tr : trace)
| Again (st : locals) (tr : trace).

Definition msg_timeout (return_on : container) (timeout : pynum)
    (status : pyval) : message :=
  Msg ("the machine did not reach the expected status %s within "
       ++ "the time limit %ds (the last status is %s)")
      [AContainer return_on; ANumber timeout; AVal status].

(** [dt = max(time.time() - t, 0)] for the readings [t] and [t']. *)
Definition elapsed (t t' : Q) : pynum :=
  PyNum.max0 (NFloat (Float64.sub (FFin t') (FFin t))).

Section Loop.

Variable session : trace -> request -> result response.
Variable clock : trace -> Q.
Variable json_loads : string -> option pyval.
Variable py_repr : pyval -> string.

Fixpoint poll_loop (fuel : nat) (self : Machine)
    (return_on continue_on : container) (timeout : pynum)
    (st : locals) (tr : trace) : poll_status * locals * trace :=
  match fuel with
  | O => (Looping, st, tr)
  | S fuel' =>
      match time_time clock tr with
      | (inl e, tr1) => (Raised e, st, tr1)
      | (inr t, tr1) =>
          match fetch_status session json_loads py_repr self tr1 with
          | (inl e, tr2) => (Raised e, st, tr2)
          | (inr status, tr2) =>
              match Py.contains return_on status with
              | inl e => (Raised e, st, tr2)
              | inr true => (Returned, st, tr2)
              | inr false =>
                  match Py.contains continue_on status with
                  | inl e => (Raised e, st, tr2)
                  | inr true =>
                      if PyNum.gt (wait_total st) timeout then
                        (Raised (MAASError
                                   (msg_timeout return_on timeout status)),
                         st, tr2)
                      else
                        match time_time clock tr2 with
                        | (inl e, tr3) => (Raised e, st, tr3)
                        | (inr t', tr3) =>
                            let dt := elapsed t t' in
                            match time_sleep (backoff st) tr3 with
                            | (inl e, tr4) => (Raised e, st, tr4)
                            | (inr _, tr4) =>
                                match PyNum.add dt (NInt (backoff st)) with
                                | inl e => (Raised e, st, tr4)
                                | inr step =>
                                    match PyNum.add (wait_total st) step
                                    with
                                    | inl e => (Raised e, st, tr4)
                                    | inr w =>
                                        poll_loop fuel' self return_on
                                          continue_on timeout
                                          (Locals w
                                             (Z.min 10 (backoff st * 2)))
                                          tr4
                                    end
                                end
                            end
                        end
                  | inr false =>
                      (Raised (MAASError (msg_unexpected_status status)),
                       st, tr2)
                  end
              end
          end
      end
  end.

Definition poll_init : locals := Locals (NInt 0) 3.

(** [Machine.poll], granted [fuel] iterations. *)
Definition poll (fuel : nat) (self : Machine)
    (return_on continue_on : container) (timeout : pynum) (tr : trace)
  : poll_status * locals * trace :=
  poll_loop fuel self return_on continue_on timeout poll_init tr.

(** The body of the loop. *)
Definition poll_iter (self : Machine) (return_on continue_on : container)
    (timeout : pynum) (st : locals) (tr : trace) : iteration :=
  let t := clock tr in
  match fetch_status session json_loads py_repr self (tr ++ [EvClock t])%list
  with
  | (inl e, tr2) => Leave (Raised e) tr2
  | (inr status, tr2) =>
      match Py.contains return_on status with
      | inl e => Leave (Raised e) tr2
      | inr true => Leave Returned tr2
      | inr false =>
          match Py.contains continue_on status with
          | inl e => Leave (Raised e) tr2
          | inr true =>
              if PyNum.gt (wait_total st) timeout then
                Leave (Raised (MAASError
                                 (msg_timeout return_on timeout status))) tr2
              else
                let t' := clock tr2 in
                let tr4 :=
                  ((tr2 ++ [EvClock t']) ++ [EvSleep (backoff st)])%list in
                match PyNum.add (elapsed t t') (NInt (backoff st)) with
                | inl e => Leave (Raised e) tr4
                | inr step =>
                    match PyNum.add (wait_total st) step with
                    | inl e => Leave (Raised e) tr4
                    | inr w =>
                        Again (Locals w (Z.min 10 (backoff st * 2))) tr4
                    end
                end
          | inr false =>
              Leave (Raised (MAASError (msg_unexpected_status status))) tr2
          end
      end
  end.

End Loop.

End Interp.

(** ** A concrete world to run the client in *)

(** [json.loads] is the interpreter's library, and the client never writes
    JSON.  This is a reader and a writer of the notation, so that the model
    runs on concrete response bodies: [null], [true], [false], integers,
    floats in decimal notation, strings with backslash escapes for the quote
    and the backslash, arrays and objects.  The reader rounds a decimal to
    the nearest float, as the library does. *)
Module Json.

Definition quote : ascii := "034"%char.
Definition backslash : ascii := "092"%char.

Fixpoint write_chars (s : string) : string :=
  match s with
  | EmptyString => EmptyString
  | String c rest =>
      if Ascii.eqb c quote || Ascii.eqb c backslash
      then String backslash (String c (write_chars rest))
      else String c (write_chars rest)
  end.

Definition write_string (s : string) : string :=
  String quote (write_chars s ++ String quote EmptyString).

Definition digit (n : N) : ascii := ascii_of_N (48 + n).

Fixpoint write_digits (fuel : nat) (n : N) (acc : string) : string :=
  match fuel with
  | O => acc
  | S fuel' =>
      let acc' := String (digit (n mod 10)) acc in
      if (n / 10 =? 0)%N then acc' else write_digits fuel' (n / 10) acc'
  end.

Definition write_int (z : Z) : string :=
  let n := Z.to_N (Z.abs z) in
  let ds := write_digits (S (N.to_nat (N.log2 n))) n EmptyString in
  if (z <? 0)%Z then String "-" ds else ds.

(** The last [k] decimal digits of [n], before [acc]. *)
Fixpoint write_fixed (k : nat) (n : Z) (acc : string) : string :=
  match k with
  | O => acc
  | S k' =>
      write_fixed k' (n / 10)
        (String (digit (Z.to_N (n mod 10))) acc)
  end.

(** Whether two rationals are the same fraction. *)
Definition same_fraction (p q : Q) : bool :=
  (Qnum p =? Qnum q)%Z && (Qden p =? Qden q)%positive.

(** A rational that is the value of a float, in lowest terms: rounding
    leaves it as it is. *)
Definition is_float (q : Q) : bool :=
  match Float64.round q with
  | FFin q' => same_fraction q' q
  | _ => false
  end.

(** The decimal expansion of a float: the digits of its whole part, a
    point, and as many digits after it as its denominator has bits, which
    are enough for the expansion to be exact. *)
Definition write_float (q : Q) : string :=
  let k := Pos.size_nat (Qden q) in
  let n := (Z.abs (Qnum q) * 10 ^ Z.of_nat k / Zpos (Qden q))%Z in
  let whole := Z.to_N (n / 10 ^ Z.of_nat k) in
  let ds :=
    write_digits (S (N.to_nat (N.log2 whole))) whole
      (String "." (write_fixed k n EmptyString)) in
  if (Qnum q <? 0)%Z then String "-" ds else ds.

(** Modelled from the spec: the encoding of a structured value as a JSON
    body, which the client itself never does.  A value has a text unless
    one of its floats is not the value of a float. *)
Fixpoint dumps (v : pyval) : option string :=
  match v with
  | PNone => Some "null"
  | PBool true => Some "true"
  | PBool false => Some "false"
  | PInt z => Some (write_int z)
  | PFloat q => if is_float q then Some (write_float q) else None
  | PStr s => Some (write_string s)
  | PList l =>
      let fix items (l : list pyval) : option string :=
        match l with
        | [] => Some ""
        | x :: rest =>
            match dumps x, items rest with
            | Some a, Some b =>
                Some (match rest with [] => a | _ => a ++ ", " ++ b end)
            | _, _ => None
            end
        end in
      match items l with
      | Some body => Some ("[" ++ body ++ "]")
      | None => None
      end
  | PDict kv =>
      let fix members (kv : list (string * pyval)) : option string :=
        match kv with
        | [] => Some ""
        | (k, x) :: rest =>
            match dumps x, members rest with
            | Some a, Some b =>
                let m := write_string k ++ ": " ++ a in
                Some (match rest with [] => m | _ => m ++ ", " ++ b end)
            | _, _ => None
            end
        end in
      match members kv with
      | Some body => Some ("{" ++ body ++ "}")
      | None => None
      end
  end.

(** The texts of the items of an array and of the members of an object,
    as [dumps] writes them between the brackets. *)
Fixpoint dumps_items (l : list pyval) : option string :=
  match l with
  | [] => Some ""
  | x :: rest =>
      match dumps x, dumps_items rest with
      | Some a, Some b =>
          Some (match rest with [] => a | _ => a ++ ", " ++ b end)
      | _, _ => None
      end
  end.

Fixpoint dumps_members (kv : list (string * pyval)) : option string :=
  match kv with
  | [] => Some ""
  | (k, x) :: rest =>
      match dumps x, dumps_members rest with
      | Some a, Some b =>
          let m := write_string k ++ ": " ++ a in
          Some (match rest with [] => m | _ => m ++ ", " ++ b end)
      | _, _ => None
      end
  end.

Definition is_space (c : ascii) : bool :=
  Ascii.eqb c " " || Ascii.eqb c "010"%char
  || Ascii.eqb c "013"%char || Ascii.eqb c "009"%char.

Fixpoint skip_ws (s : string) : string :=
  match s with
  | String c rest => if is_space c then skip_ws rest else s
  | EmptyString => EmptyString
  end.

(** The characters of a string literal after its opening quote, and what
    follows the closing quote. *)
Fixpoint read_chars (s : string) : option (string * string) :=
  match s with
  | EmptyString => None
  | String c rest =>
      if Ascii.eqb c quote then Some (EmptyString, rest)
      else if Ascii.eqb c backslash then
        match rest with
        | String d rest' =>
            if Ascii.eqb d quote || Ascii.eqb d backslash then
              match read_chars rest' with
              | Some (body, after) => Some (String d body, after)
              | None => None
              end
            else None
        | EmptyString => None
        end
      else
        match read_chars rest with
        | Some (body, after) => Some (String c body, after)
        | None => None
        end
  end.

Definition digit_value (c : ascii) : option Z :=
  let n := Z.of_N (N_of_ascii c) in
  if (48 <=? n)%Z && (n <=? 57)%Z then Some (n - 48)%Z else None.

Fixpoint read_digits (acc : Z) (s : string) : Z * string :=
  match s with
  | String c rest =>
      match digit_value c with
      | Some d => read_digits (acc * 10 + d) rest
      | None => (acc, s)
      end
  | EmptyString => (acc, s)
  end.

Definition read_nat (s : string) : option (Z * string) :=
  match s with
  | String c _ =>
      match digit_value c with
      | Some _ => Some (read_digits 0 s)
      | None => None
      end
  | EmptyString => None
  end.

(** The digits after the point: the number read so far with them
    appended, and the power of ten they stand over. *)
Fixpoint read_frac (acc : Z) (den : positive) (s : string)
  : Z * positive * string :=
  match s with
  | String c rest =>
      match digit_value c with
      | Some d => read_frac (acc * 10 + d) (den * 10) rest
      | None => (acc, den, s)
      end
  | EmptyString => (acc, den, s)
  end.

(** A number after its sign: an [int], or with a point and digits after it
    a float, the nearest one to the decimal.  No exponent is read, and a
    decimal beyond the largest float is refused. *)
Definition read_number (negative : bool) (s : string)
  : option (pyval * string) :=
  match read_nat s with
  | None => None
  | Some (z, String "." after) =>
      match read_frac z 1 after with
      | (_, xH, _) => None
      | (n, den, rest) =>
          match Float64.round ((if negative then - n else n)%Z # den) with
          | FFin q => Some (PFloat q, rest)
          | _ => None
          end
      end
  | Some (z, after) => Some (PInt (if negative then - z else z)%Z, after)
  end.

Definition read_keyword (kw : string) (v : pyval) (s : string)
  : option (pyval * string) :=
  if String.prefix kw s
  then Some (v, substring (String.length kw)
                          (String.length s - String.length kw) s)
  else None.

Fixpoint read_value (fuel : nat) (s : string) : option (pyval * string) :=
  match fuel with
  | O => None
  | S fuel' =>
      match skip_ws s with
      | String "n" _ as t => read_keyword "null" PNone t
      | String "t" _ as t => read_keyword "true" (PBool true) t
      | String "f" _ as t => read_keyword "false" (PBool false) t
      | String "[" rest =>
          match skip_ws rest with
          | String "]" after => Some (PList [], after)
          | _ =>
              match read_items fuel' rest with
              | Some (l, after) => Some (PList l, after)
              | None => None
              end
          end
      | String "{" rest =>
          match skip_ws rest with
          | String "}" after => Some (PDict [], after)
          | _ =>
              match read_members fuel' rest with
              | Some (kv, after) => Some (PDict kv, after)
              | None => None
              end
          end
      | String "-" rest => read_number true rest
      | String c rest as t =>
          if Ascii.eqb c quote then
            match read_chars rest with
            | Some (body, after) => Some (PStr body, after)
            | None => None
            end
          else read_number false t
      | EmptyString => None
      end
  end

with read_items (fuel : nat) (s : string)
  : option (list pyval * string) :=
  match fuel with
  | O => None
  | S fuel' =>
      match read_value fuel' s with
      | Some (x, after) =>
          match skip_ws after with
          | String "]" after' => Some ([x], after')
          | String "," after' =>
              match read_items fuel' after' with
              | Some (l, rest) => Some (x :: l, rest)
              | None => None
              end
          | _ => None
          end
      | None => None
      end
  end

with read_members (fuel : nat) (s : string)
  : option (list (string * pyval) * string) :=
  match fuel with
  | O => None
  | S fuel' =>
      match skip_ws s with
      | String c rest =>
          if Ascii.eqb c quote then
            match read_chars rest with
            | Some (k, after) =>
                match skip_ws after with
                | String ":" after' =>
                    match read_value fuel' after' with
                    | Some (x, after'') =>
                        match skip_ws after'' with
                        | String "}" rest' => Some ([(k, x)], rest')
                        | String "," rest' =>
                            match read_members fuel' rest' with
                            | Some (kv, rest'') => Some ((k, x) :: kv, rest'')
                            | None => None
                            end
                        | _ => None
                        end
                    | None => None
                    end
                | _ => None
                end
            | None => None
            end
          else None
      | EmptyString => None
      end
  end.

Definition loads (s : string) : option pyval :=
  match read_value (S (String.length s)) s with
  | Some (v, rest) =>
      match skip_ws rest with
      | EmptyString => Some v
      | _ => None
      end
  | None => None
  end.

(** The writer as a total function: the empty text for a value that has
    none. *)
Definition dumps_text (v : pyval) : string :=
  match dumps v with
  | Some s => s
  | None => EmptyString
  end.

End Json.

(** A session that answers from a script, a clock that advances with the
    work done, and the texts of values. *)
Module Sim.

Definition json_headers : headers :=
  [("Content-Type", "application/json; charset=utf-8")].

(** The verdict of [requests] on a status code. *)
Definition code_ok (code : Z) : bool :=
  negb ((400 <=? code)%Z && (code <? 600)%Z).

Definition json_response (code : Z) (v : pyval) : response :=
  Response code json_headers (Json.dumps_text v) (code_ok code).

Definition html_response (code : Z) (body : string) : response :=
  Response code [("Content-Type", "text/html")] body (code_ok code).

(** The n-th request gets the n-th answer of the script, and the last
    answer for ever once the script is used up. *)
Definition session (script : list response) (final : response)
  : trace -> request -> result response :=
  fun tr _ => inr (nth (List.length (requests tr)) script final).

(** A clock that starts at [0]; a request takes [round_trip], a sleep takes
    what was asked. *)
Fixpoint clock (round_trip : Q) (tr : trace) : Q :=
  match tr with
  | [] => 0
  | EvClock _ :: rest => clock round_trip rest
  | EvRequest _ :: rest => round_trip + clock round_trip rest
  | EvSleep d :: rest => inject_Z d + clock round_trip rest
  end.

Definition py_repr (v : pyval) : string := Json.dumps_text v.

Definition maas : Client :=
  MkClient "http://maas.example/MAAS/api/2.0" "ck" "ok" "secret".

Definition node : Machine := MkMachine maas (PStr "abc123").

Definition status (name : string) : response :=
  json_response 200 (PDict [("status_name", PStr name)]).

(** Answers of the node listing. *)
Definition listing (ids : list string) : response :=
  json_response 200
    (PList (map (fun i => PDict [("system_id", PStr i);
                                 ("hostname", PStr "node1")]) ids)).

Definition created : response :=
  json_response 200 (PDict [("system_id", PStr "abc123")]).

(** A machine that stays in one status for ever. *)
Definition stuck (name : string) : trace -> request -> result response :=
  session [] (status name).

(** A machine that deploys for two checks and then breaks. *)
Definition breaks : trace -> request -> result response :=
  session [status "Deploying"; status "Deploying"] (status "Broken").

(** How a [poll] of a machine stuck in a status to wait on ends, with
    timeout 5 and requests that take no time. *)
Definition stuck_after_three : poll_status * poll_locals * trace :=
  Eval vm_compute in
    poll (stuck "X") (clock 0) Json.loads py_repr 3 node
      (PySet ["Y"]) (PySet ["X"]) 5 [].

(** Where a [poll] of the breaking machine stands after two iterations,
    with requests that take half a unit. *)
Definition breaks_after_two : poll_status * poll_locals * trace :=
  Eval vm_compute in
    poll breaks (clock (1 # 2)) Json.loads py_repr 2 node
      (PySet ["Deployed"]) (PySet ["Deploying"]) 60 [].

End Sim.

(** ** The words of the specification *)

(** The media type of a content-type value: what stands before the first
    [;], the whole value when there is none. *)
Fixpoint media_type (ct : string) : string :=
  match ct with
  | EmptyString => EmptyString
  | String c rest =>
      if Ascii.eqb c ";" then EmptyString else String c (media_type rest)
  end.

(** The backoff of the n-th sleep of a [poll] call: 3, 6, 10, 10, 10, ... *)
Definition backoff_seq (n : nat) : Z :=
  match n with
  | O => 3
  | S O => 6
  | _ => 10
  end.

(** The requests the client sends. *)
Definition lookup_request (self : Client) (hostname : string) : request :=
  Request GET (_url self (lookup_path hostname)) accept_json NoData.

Definition enlist_request (self : Client) (hostname : string)
    (mac_addresses : list pyval) (power_type : pyval)
    (power_parameters : list (string * pyval)) : request :=
  Request POST (_url self "/machines/") accept_json
    (Pairs (enlist_data hostname mac_addresses power_type power_parameters)).

Definition detail_request (py_repr : pyval -> string) (self : Machine)
  : request :=
  Request GET (_url (client self) (machine_path py_repr self)) accept_json
    NoData.

(** ** One iteration of the [poll] loop *)

(** The local variables after the sleep of an iteration that read the clock
    at [t] before the fetch and at [t'] after it. *)
Definition after_sleep (st : poll_locals) (t t' : Q) : poll_locals :=
  PollLocals (wait_total st + (Qmax (t' - t) 0 + inject_Z (backoff st)))
             (Z.min 10 (backoff st * 2)).

(** How an iteration ends: the loop is left, or it goes round again. *)
Inductive iteration : Type :=
| Leave (r : poll_status) (tr : trace)
| Again (st : poll_locals) (tr : trace).

(** The body of the [while True:] loop of [poll]. *)
Definition poll_iter (session : trace -> request -> result response)
    (clock : trace -> Q) (json_loads : string -> option pyval)
    (py_repr : pyval -> string) (self : Machine)
    (return_on continue_on : container) (timeout : Q)
    (st : poll_locals) (tr : trace) : iteration :=
  let t := clock tr in
  match fetch_status session json_loads py_repr self (tr ++ [EvClock t])%list
  with
  | (inl e, tr2) => Leave (Raised e) tr2
  | (inr status, tr2) =>
      match Py.contains return_on status with
      | inl e => Leave (Raised e) tr2
      | inr true => Leave Returned tr2
      | inr false =>
          match Py.contains continue_on status with
          | inl e => Leave (Raised e) tr2
          | inr true =>
              if timed_out st timeout then
                Leave (Raised (MAASError
                                 (msg_timeout return_on timeout status))) tr2
              else
                let t' := clock tr2 in
                Again (after_sleep st t t')
                      ((tr2 ++ [EvClock t']) ++ [EvSleep (backoff st)])%list
          | inr false =>
              Leave (Raised (MAASError (msg_unexpected_status status))) tr2
          end
      end
  end.

(** The backoffs of [k] successive sleeps, the first being [b]. *)
Fixpoint backoffs (b : Z) (k : nat) : list Z :=
  match k with
  | O => []
  | S k' => b :: backoffs (Z.min 10 (b * 2)) k'
  end.

(** ** Notions for further properties *)

(** How many times a character occurs in a string. *)
Fixpoint count_char (c : ascii) (s : string) : nat :=
  match s with
  | EmptyString => O
  | String d rest =>
      if Ascii.eqb d c then S (count_char c rest) else count_char c rest
  end.

Definition first_char (s : string) : option ascii :=
  match s with
  | EmptyString => None
  | String c _ => Some c
  end.

Fixpoint last_char (s : string) : option ascii :=
  match s with
  | EmptyString => None
  | String c EmptyString => Some c
  | String _ rest => last_char rest
  end.

(** A string of [n] copies of a character. *)
Fixpoint copies (n : nat) (c : ascii) : string :=
  match n with
  | O => EmptyString
  | S n' => String c (copies n' c)
  end.

(** [sep.join(parts)] for a one-character separator. *)
Fixpoint join (sep : ascii) (parts : list string) : string :=
  match parts with
  | [] => EmptyString
  | [w] => w
  | w :: ws => w ++ String sep (join sep ws)
  end.

(** The sum of a list of durations. *)
Definition total (l : list Z) : Z := fold_right Z.add 0%Z l.

(** The operations of a [Machine] that send one request and decode the
    answer with the success check. *)
Inductive lifecycle : Type :=
| GetDetail
| Commission
| Allocate
| Deploy
| Release
| Delete.

Definition lifecycle_call (session : trace -> request -> result response)
    (json_loads : string -> option pyval) (py_repr : pyval -> string)
    (o : lifecycle) : Machine -> M pyval :=
  match o with
  | GetDetail => get_detail session json_loads py_repr
  | Commission => commission session json_loads py_repr
  | Allocate => allocate session json_loads
  | Deploy => deploy session json_loads py_repr
  | Release => release session json_loads py_repr
  | Delete => Machine_delete session json_loads py_repr
  end.

(** The request each of them sends. *)
Definition lifecycle_request (py_repr : pyval -> string) (o : lifecycle)
    (self : Machine) : request :=
  let base := url (client self) in
  let path := ("/machines/" ++ py_str py_repr (system_id self) ++ "/")%string
  in
  match o with
  | GetDetail => Request GET (base ++ path) accept_json NoData
  | Commission =>
      Request POST (base ++ path ++ "?op=commission") accept_json NoData
  | Allocate =>
      Request POST (base ++ "/machines/?op=allocate") accept_json
        (Dict [("system_id", system_id self)])
  | Deploy => Request POST (base ++ path ++ "?op=deploy") accept_json NoData
  | Release => Request POST (base ++ path ++ "?op=release") accept_json NoData
  | Delete => Request DELETE (base ++ path) accept_json NoData
  end.

(** More concrete worlds. *)
Module Scenario.

(** A session whose connection fails. *)
Definition down : trace -> request -> result response :=
  fun _ _ => inl (External "ConnectionError").

(** A session that answers once and then fails. *)
Definition flaky (first : response) : trace -> request -> result response :=
  fun tr _ =>
    match requests tr with
    | [] => inr first
    | _ => inl (External "ConnectionError")
    end.

(** A machine that deploys for one check and is deployed at the next. *)
Definition deploys : trace -> request -> result response :=
  Sim.session [Sim.status "Deploying"] (Sim.status "Deployed").

(** A [poll] of the flaky machine after one iteration. *)
Definition flaky_after_one : poll_status * poll_locals * trace :=
  Eval vm_compute in
    poll (flaky (Sim.status "Deploying")) (Sim.clock 0) Json.loads
      Sim.py_repr 1 Sim.node (PySet ["Deployed"]) (PySet ["Deploying"])
      60 [].

(** A [poll] of the deploying machine with timeout 2, after one
    iteration. *)
Definition deploys_after_one : poll_status * poll_locals * trace :=
  Eval vm_compute in
    poll deploys (Sim.clock 0) Json.loads Sim.py_repr 1 Sim.node
      (PySet ["Deployed"]) (PySet ["Deploying"]) 2 [].

(** A [poll] of a stuck machine with timeout 5, after two iterations. *)
Definition stuck_after_two : poll_status * poll_locals * trace :=
  Eval vm_compute in
    poll (Sim.stuck "X") (Sim.clock 0) Json.loads Sim.py_repr 2 Sim.node
      (PySet ["Y"]) (PySet ["X"]) 5 [].

(** A clock that goes back by one unit at each reading. *)
Definition backwards (tr : trace) : Q :=
  - inject_Z (Z.of_nat (List.length tr)).

(** A [poll] of a stuck machine under the clock that goes back, after one
    and after three iterations. *)
Definition backwards_after_one : poll_status * poll_locals * trace :=
  Eval vm_compute in
    poll (Sim.stuck "X") backwards Json.loads Sim.py_repr 1 Sim.node
      (PySet ["Y"]) (PySet ["X"]) 5 [].

Definition backwards_after_three : poll_status * poll_locals * trace :=
  Eval vm_compute in
    poll (Sim.stuck "X") backwards Json.loads Sim.py_repr 3 Sim.node
      (PySet ["Y"]) (PySet ["X"]) 5 [].

(** A machine that deploys for three checks and is deployed afterwards. *)
Definition late : trace -> request -> result response :=
  Sim.session [Sim.status "Deploying"; Sim.status "Deploying";
               Sim.status "Deploying"] (Sim.status "Deployed").

(** A [poll] of a stuck machine with a negative timeout. *)
Definition impatient : poll_status * poll_locals * trace :=
  Eval vm_compute in
    poll (Sim.stuck "X") (Sim.clock 0) Json.loads Sim.py_repr 4 Sim.node
      (PySet ["Y"]) (PySet ["X"]) (-1) [].

End Scenario.

(** ** Bounds on Python numbers *)

(** A float is at least, or at most, an integer. *)
Definition fge (f : pyfloat) (n : Z) : Prop :=
  match f with
  | FFin q => inject_Z n <= q
  | FPosInf => True
  | _ => False
  end.

Definition fle (f : pyfloat) (n : Z) : Prop :=
  match f with
  | FFin q => q <= inject_Z n
  | FNegInf => True
  | _ => False
  end.

Definition at_least (x : pynum) (n : Z) : Prop := fge (PyNum.value x) n.

Definition at_most (x : pynum) (n : Z) : Prop := fle (PyNum.value x) n.

(** A number is finite and its value is [q]. *)
Definition finite_value (x : pynum) (q : Q) : Prop :=
  match PyNum.value x with
  | FFin v => v == q
  | _ => False
  end.

(** An [int] that a float holds exactly. *)
Definition small (x : pynum) : Prop :=
  match x with
  | NInt z => (0 <= z < 2 ^ 53)%Z
  | NFloat _ => True
  end.

(** * The response decoder *)

Section DecoderFacts.

Variable json_loads : string -> option pyval.

Lemma partition_media_type (ct : string) :
  fst (fst (PyString.partition ";" ct)) = media_type ct.
Proof.
  induction ct as [|c rest IH]; simpl; [reflexivity|].
  destruct (Ascii.eqb c ";"); [reflexivity|].
  destruct (PyString.partition ";" rest) as [[b f] a]; simpl in *.
  now rewrite IH.
Qed.

(** The test of [_get_json] says what the specification says: the header
    is absent, or its media type is not [application/json]. *)
Lemma not_json_content_type_spec (ct : option string) :
  not_json_content_type ct = true <->
  (ct = None \/ exists s, ct = Some s /\ media_type s <> "application/json").
Proof.
  unfold not_json_content_type. destruct ct as [s|].
  - rewrite partition_media_type. split.
    + intro H. right. exists s. split; [reflexivity|].
      destruct (String.eqb s "") eqn:E0.
      * apply String.eqb_eq in E0. subst s. discriminate.
      * destruct (String.eqb_spec (media_type s) "application/json");
          [discriminate|assumption].
    + intros [H|[s' [H Hne]]]; [discriminate|]. injection H as E.
      subst s'. destruct (String.eqb s ""); [reflexivity|].
      destruct (String.eqb_spec (media_type s) "application/json");
        [contradiction|reflexivity].
  - split; [now left|reflexivity].
Qed.

Lemma json_content_type_spec (ct : option string) :
  not_json_content_type ct = false <->
  exists s, ct = Some s /\ media_type s = "application/json".
Proof.
  split.
  - intro H. destruct ct as [s|]; [|discriminate]. exists s.
    split; [reflexivity|].
    destruct (string_dec (media_type s) "application/json") as [E|NE];
      [assumption|].
    assert (T : not_json_content_type (Some s) = true)
      by (apply not_json_content_type_spec; right; now exists s).
    congruence.
  - intros [s [-> E]].
    destruct (not_json_content_type (Some s)) eqn:T; [|reflexivity].
    apply not_json_content_type_spec in T.
    destruct T as [T|[s' [T NE]]]; [discriminate|].
    injection T as T. subst s'. contradiction.
Qed.

(** Every failure of the decoder is a [MAASError]. *)
Lemma _get_json_raises_MAASError (res : response) (ok_check : bool)
    (e : exn) :
  _get_json json_loads res ok_check = inl e ->
  e = MAASError (msg_bad_status res)
  \/ e = MAASError (msg_non_json res)
  \/ e = MAASError (msg_parse_failed res).
Proof.
  unfold _get_json.
  destruct (ok_check && negb (ok res)); [intros [= <-]; now left|].
  destruct (not_json_content_type _); [intros [= <-]; right; now left|].
  destruct (json_loads _); [discriminate|].
  intros [= <-]. right. now right.
Qed.

End DecoderFacts.

(** The claim that a response which is not JSON always gets the content-type
    error fails when success is enforced and the status is an error status:
    a 500 page of type [text/html] gets the status error, raised first, which
    carries no headers. *)
Lemma _get_json_bad_status_comes_first :
  let res := Sim.html_response 500 "{}" in
  headers_get (resp_headers res) "content-type" = Some "text/html"
  /\ media_type "text/html" <> "application/json"
  /\ Json.loads (text res) = Some (PDict [])
  /\ _get_json Json.loads res true = inl (MAASError (msg_bad_status res))
  /\ _get_json Json.loads res true <> inl (MAASError (msg_non_json res))
  /\ ~ In (AHeaders (resp_headers res)) (args (msg_bad_status res)).
Proof.
  cbv zeta. repeat split; try reflexivity; try discriminate.
  intros [H|[H|[]]]; discriminate.
Qed.

Section DecoderClaims.

Variable json_loads : string -> option pyval.

(** C5 (amended).  A response whose content-type header is absent, or
    whose media type (what stands before the first [;]) is not
    [application/json], is refused with the content-type error, which
    carries the status, the headers and the body, whatever the body is and
    whatever [json_loads] would make of it, provided success is not
    enforced or the status is a success status. *)
Theorem _get_json_rejects_non_json (res : response) (ok_check : bool) :
  ok_check = false \/ ok res = true ->
  (headers_get (resp_headers res) "content-type" = None
   \/ exists ct, headers_get (resp_headers res) "content-type" = Some ct
                 /\ media_type ct <> "application/json") ->
  _get_json json_loads res ok_check = inl (MAASError (msg_non_json res))
  /\ In (AInt (status_code res)) (args (msg_non_json res))
  /\ In (AHeaders (resp_headers res)) (args (msg_non_json res))
  /\ In (AStr (text res)) (args (msg_non_json res)).
Proof.
  intros Hok Hct. split.
  - unfold _get_json.
    assert (G : ok_check && negb (ok res) = false)
      by (destruct Hok as [-> | ->]; [reflexivity|apply andb_false_r]).
    rewrite G.
    apply not_json_content_type_spec in Hct. now rewrite Hct.
  - simpl. repeat split; auto.
Qed.

Variable json_dumps : pyval -> string.


End DecoderClaims.

Lemma _get_json_rejects_non_json_witness :
  let res := Sim.html_response 200 "{}" in
  Json.loads (text res) = Some (PDict [])
  /\ _get_json Json.loads res true = inl (MAASError (msg_non_json res)).
Proof.
  cbv zeta. split; [reflexivity|].
  apply (_get_json_rejects_non_json Json.loads (Sim.html_response 200 "{}")
           true).
  - right. reflexivity.
  - right. exists "text/html". split; [reflexivity|discriminate].
Defined.


(** * Hostname lookup and enlistment *)

Section ClientFacts.

Variable session : trace -> request -> result response.
Variable json_loads : string -> option pyval.

(** [get_node_id] sends one request and decides on its answer alone. *)
Lemma get_node_id_run (self : Client) (hostname : string) (tr : trace) :
  get_node_id session json_loads self hostname tr =
  (match session tr (lookup_request self hostname) with
   | inl e => inl e
   | inr res =>
       match _get_json json_loads res false with
       | inl e => inl e
       | inr nodes => pick_node_id nodes
       end
   end,
   (tr ++ [EvRequest (lookup_request self hostname)])%list).
Proof.
  unfold get_node_id, bind, Client_get, send, lift, lookup_request.
  destruct (session tr _) as [e|res]; [reflexivity|].
  destruct (_get_json json_loads res false) as [e|nodes]; reflexivity.
Qed.

Lemma get_machine_run (self : Client) (hostname : string) (tr : trace) :
  get_machine session json_loads self hostname tr =
  (match fst (get_node_id session json_loads self hostname tr) with
   | inl e => inl e
   | inr node_id =>
       if negb (Py.truthy node_id) then inr None
       else inr (Some (MkMachine self node_id))
   end,
   (tr ++ [EvRequest (lookup_request self hostname)])%list).
Proof.
  unfold get_machine, bind. rewrite get_node_id_run. simpl.
  destruct (session tr _) as [e|res]; [reflexivity|].
  destruct (_get_json json_loads res false) as [e|nodes]; [reflexivity|].
  destruct (pick_node_id nodes) as [e|node_id]; [reflexivity|].
  unfold ret. destruct (negb (Py.truthy node_id)); reflexivity.
Qed.

(** What [get_node_id] makes of a decoded list. *)
Lemma pick_node_id_list (l : list pyval) :
  pick_node_id (PList l) =
  match l with
  | [] => inr PNone
  | [node] => Py.getitem_str node "system_id"
  | _ => inl AssertionError
  end.
Proof.
  destruct l as [|x [|y l']]; try reflexivity.
  unfold pick_node_id.
  change (Py.truthy (PList (x :: y :: l'))) with true.
  change (Py.len (PList (x :: y :: l')))
    with (@inr exn Z (Z.of_nat (List.length (x :: y :: l')))).
  cbv iota beta.
  destruct (Z.eqb_spec (Z.of_nat (List.length (x :: y :: l'))) 1) as [E|_];
    [|reflexivity].
  simpl List.length in E. lia.
Qed.

(** A list of nodes yields an identifier only when it has one entry, and
    then the identifier is that entry's [system_id]. *)
Lemma pick_node_id_truthy (nodes sid : pyval) :
  pick_node_id nodes = inr sid ->
  Py.truthy sid = true ->
  exists node, nodes = PList [node]
               /\ Py.getitem_str node "system_id" = inr sid.
Proof.
  intros H T.
  destruct nodes as [| b | z | q | s | l | kv].
  - injection H as <-. discriminate.
  - unfold pick_node_id in H. destruct b; simpl in H;
      [discriminate|injection H as <-; discriminate].
  - unfold pick_node_id in H. simpl in H.
    destruct (negb (z =? 0)%Z); [discriminate|].
    injection H as <-. discriminate.
  - unfold pick_node_id in H. simpl in H.
    destruct (negb (Qeq_bool q 0)); [discriminate|].
    injection H as <-. discriminate.
  - destruct s as [|c s']; [injection H as <-; discriminate|].
    unfold pick_node_id, Py.len in H.
    change (Py.truthy (PStr (String c s'))) with true in H.
    cbv iota in H.
    match type of H with
    | context [(?a =? ?b)%Z] => destruct (a =? b)%Z
    end; discriminate.
  - rewrite pick_node_id_list in H.
    destruct l as [|x [|y l']]; try discriminate.
    + injection H as <-. discriminate.
    + exists x. split; [reflexivity|exact H].
  - destruct kv as [|p kv']; [injection H as <-; discriminate|].
    unfold pick_node_id, Py.len in H.
    change (Py.truthy (PDict (p :: kv'))) with true in H.
    cbv iota in H.
    match type of H with
    | context [(?a =? ?b)%Z] => destruct (a =? b)%Z
    end; discriminate.
Qed.

End ClientFacts.

Section ClientClaims.

Variable session : trace -> request -> result response.
Variable json_loads : string -> option pyval.

(** C8.  When the answer to a hostname lookup decodes to a list of more
    than one entry, the lookup ends with [AssertionError], whose class is
    not that of any error of the decoder; a list of no entry or of one
    entry never ends so. *)
Theorem get_node_id_asserts_unique (self : Client) (hostname : string)
    (tr : trace) (res : response) (l : list pyval) :
  session tr (lookup_request self hostname) = inr res ->
  _get_json json_loads res false = inr (PList l) ->
  ((1 < List.length l)%nat ->
   fst (get_node_id session json_loads self hostname tr)
   = inl AssertionError)
  /\ (forall res' ok_check e,
         _get_json json_loads res' ok_check = inl e ->
         class_of AssertionError <> class_of e)
  /\ ((List.length l <= 1)%nat ->
      fst (get_node_id session json_loads self hostname tr)
      <> inl AssertionError).
Proof.
  intros Hs Hd. rewrite get_node_id_run, Hs, Hd.
  cbv beta iota delta [fst]. repeat split.
  - intro L. rewrite pick_node_id_list.
    destruct l as [|x [|y l']]; simpl in L; try lia. reflexivity.
  - intros res' ok_check e He.
    apply _get_json_raises_MAASError in He.
    destruct He as [-> | [-> | ->]]; discriminate.
  - intro L. rewrite pick_node_id_list.
    destruct l as [|x [|y l']]; simpl in L; try lia.
    + discriminate.
    + destruct x; simpl; try discriminate.
      destruct (Py.lookup "system_id" kv); discriminate.
Qed.

(** C10.  When the answer to a hostname lookup decodes to the empty list,
    [get_node_id] returns [None] and [get_machine] returns [None], no
    handle being built. *)
Theorem lookup_of_unknown_host (self : Client) (hostname : string)
    (tr : trace) (res : response) :
  session tr (lookup_request self hostname) = inr res ->
  _get_json json_loads res false = inr (PList []) ->
  get_node_id session json_loads self hostname tr
  = (inr PNone, (tr ++ [EvRequest (lookup_request self hostname)])%list)
  /\ get_machine session json_loads self hostname tr
     = (inr None, (tr ++ [EvRequest (lookup_request self hostname)])%list).
Proof.
  intros Hs Hd. split.
  - rewrite get_node_id_run, Hs, Hd. reflexivity.
  - rewrite get_machine_run, get_node_id_run, Hs, Hd. reflexivity.
Qed.

(** C9.  A call of [enlist_and_commission] that returns has sent exactly
    two requests, the creation request (a POST to the machines collection
    with the flattened fields) and then the lookup by hostname; the handle
    it returns is on the same client and its identifier is the [system_id]
    of the one entry the lookup answered. *)
Theorem enlist_and_commission_requests (self : Client) (hostname : string)
    (mac_addresses : list pyval) (power_type : pyval)
    (power_parameters : list (string * pyval))
    (tr tr' : trace) (r : option Machine) :
  enlist_and_commission session json_loads self hostname mac_addresses
    power_type power_parameters tr = (inr r, tr') ->
  let create :=
    enlist_request self hostname mac_addresses power_type
      power_parameters in
  let find := lookup_request self hostname in
  tr' = (tr ++ [EvRequest create; EvRequest find])%list
  /\ meth create = POST
  /\ req_url create = (url self ++ "/machines/")%string
  /\ forall m, r = Some m ->
       client m = self
       /\ exists res node,
            session (tr ++ [EvRequest create])%list find = inr res
            /\ _get_json json_loads res false = inr (PList [node])
            /\ Py.getitem_str node "system_id" = inr (system_id m).
Proof.
  intros H create find.
  unfold enlist_and_commission, bind, Client_post, send in H.
  fold (enlist_request self hostname mac_addresses power_type
          power_parameters) in H.
  fold create in H.
  destruct (session tr create) as [e|res0]; [discriminate|].
  rewrite get_machine_run, get_node_id_run in H. simpl in H.
  fold find in H.
  injection H as Hr Htr. split; [|split; [reflexivity|split]].
  - rewrite <- Htr, <- app_assoc. reflexivity.
  - reflexivity.
  - intros m ->.
    destruct (session (tr ++ [EvRequest create])%list find) as [e|res];
      [discriminate|].
    destruct (_get_json json_loads res false) as [e|nodes] eqn:D;
      [discriminate|].
    destruct (pick_node_id nodes) as [e|sid] eqn:P; [discriminate|].
    destruct (Py.truthy sid) eqn:T; simpl in Hr; [|discriminate].
    injection Hr as <-. split; [reflexivity|].
    destruct (pick_node_id_truthy _ _ P T) as [node [-> G]].
    exists res, node. repeat split; assumption.
Qed.

End ClientClaims.

Lemma get_node_id_asserts_unique_witness :
  fst (get_node_id (Sim.session [] (Sim.listing ["abc123"; "def456"]))
         Json.loads Sim.maas "node1.maas" [])
  = inl AssertionError.
Proof.
  refine (proj1 (get_node_id_asserts_unique
                   (Sim.session [] (Sim.listing ["abc123"; "def456"]))
                   Json.loads Sim.maas "node1.maas" []
                   (Sim.listing ["abc123"; "def456"])
                   [PDict [("system_id", PStr "abc123");
                           ("hostname", PStr "node1")];
                    PDict [("system_id", PStr "def456");
                           ("hostname", PStr "node1")]] _ _) _).
  - reflexivity.
  - vm_compute. reflexivity.
  - simpl. lia.
Defined.

Lemma lookup_of_unknown_host_witness :
  get_machine (Sim.session [] (Sim.listing [])) Json.loads Sim.maas
    "ghost.maas" []
  = (inr None, [EvRequest (lookup_request Sim.maas "ghost.maas")]).
Proof.
  refine (proj2 (lookup_of_unknown_host
                   (Sim.session [] (Sim.listing [])) Json.loads Sim.maas
                   "ghost.maas" [] (Sim.listing []) _ _)).
  - reflexivity.
  - vm_compute. reflexivity.
Defined.

Lemma enlist_and_commission_requests_witness :
  let macs := [PStr "52:54:00:12:34:56"; PStr "52:54:00:12:34:57"] in
  let power := [("power_address", PStr "10.0.0.9")] in
  let create :=
    enlist_request Sim.maas "node1.maas" macs (PStr "ipmi") power in
  let find := lookup_request Sim.maas "node1.maas" in
  enlist_and_commission
    (Sim.session [Sim.created] (Sim.listing ["abc123"])) Json.loads
    Sim.maas "node1.maas" macs (PStr "ipmi") power []
  = (inr (Some (MkMachine Sim.maas (PStr "abc123"))),
     [EvRequest create; EvRequest find])
  /\ req_data create
     = Pairs [("hostname", PStr "node1"); ("architecture", PStr "amd64");
              ("power_type", PStr "ipmi"); ("domain", PStr "maas");
              ("mac_addresses", PStr "52:54:00:12:34:56");
              ("mac_addresses", PStr "52:54:00:12:34:57");
              ("power_parameters_power_address", PStr "10.0.0.9")]
  /\ req_url find
     = "http://maas.example/MAAS/api/2.0/nodes/?hostname=node1&domain=maas"
  /\ exists res node,
       Sim.session [Sim.created] (Sim.listing ["abc123"])
         [EvRequest create] find = inr res
       /\ _get_json Json.loads res false = inr (PList [node])
       /\ Py.getitem_str node "system_id" = inr (PStr "abc123").
Proof.
  cbv zeta.
  assert (Run :
    enlist_and_commission
      (Sim.session [Sim.created] (Sim.listing ["abc123"])) Json.loads
      Sim.maas "node1.maas"
      [PStr "52:54:00:12:34:56"; PStr "52:54:00:12:34:57"] (PStr "ipmi")
      [("power_address", PStr "10.0.0.9")] []
    = (inr (Some (MkMachine Sim.maas (PStr "abc123"))),
       [EvRequest
          (enlist_request Sim.maas "node1.maas"
             [PStr "52:54:00:12:34:56"; PStr "52:54:00:12:34:57"]
             (PStr "ipmi") [("power_address", PStr "10.0.0.9")]);
        EvRequest (lookup_request Sim.maas "node1.maas")]))
    by (vm_compute; reflexivity).
  destruct (enlist_and_commission_requests _ _ _ _ _ _ _ _ _ _ Run)
    as (_ & _ & _ & Hm).
  destruct (Hm _ eq_refl) as [_ Hex].
  split; [exact Run|]. split; [reflexivity|]. split; [reflexivity|].
  exact Hex.
Defined.

(** * The poll loop *)

Lemma sleeps_app (a b : trace) :
  sleeps (a ++ b)%list = (sleeps a ++ sleeps b)%list.
Proof.
  induction a as [|[t|r|d] a IH]; simpl; [reflexivity| | |]; now rewrite ?IH.
Qed.

Lemma requests_app (a b : trace) :
  requests (a ++ b)%list = (requests a ++ requests b)%list.
Proof.
  induction a as [|[t|r|d] a IH]; simpl; [reflexivity| | |]; now rewrite ?IH.
Qed.

Section PollFacts.

Local Open Scope list_scope.

Variable session : trace -> request -> result response.
Variable clock : trace -> Q.
Variable json_loads : string -> option pyval.
Variable py_repr : pyval -> string.

Variable self : Machine.
Variables return_on continue_on : container.
Variable timeout : Q.

Local Abbreviation fetch := (fetch_status session json_loads py_repr self).
Local Abbreviation loop :=
  (poll_loop session clock json_loads py_repr).
Local Abbreviation iter :=
  (poll_iter session clock json_loads py_repr self return_on continue_on
     timeout).

(** A fetch sends one request, whatever it ends with. *)
Lemma fetch_status_trace (tr : trace) :
  snd (fetch tr) = (tr ++ [EvRequest (detail_request py_repr self)])%list.
Proof.
  unfold fetch_status, get_detail, bind, Client_get, send, lift,
    detail_request.
  destruct (session tr _) as [e|res]; [reflexivity|].
  destruct (_get_json json_loads res true) as [e|info]; reflexivity.
Qed.

(** The loop is its body, repeated. *)
Lemma poll_loop_unfold (fuel : nat) (st : poll_locals) (tr : trace) :
  loop (S fuel) self return_on continue_on timeout st tr =
  match iter st tr with
  | Leave r tr' => (r, st, tr')
  | Again st' tr' => loop fuel self return_on continue_on timeout st' tr'
  end.
Proof.
  unfold poll_iter. cbn [poll_loop]. unfold time_time, time_sleep.
  destruct (fetch _) as [[e|status] tr2]; [reflexivity|].
  destruct (Py.contains return_on status) as [e|[|]]; try reflexivity.
  destruct (Py.contains continue_on status) as [e|[|]]; try reflexivity.
  destruct (timed_out st timeout); reflexivity.
Qed.

(** An iteration that leaves the loop has not slept, and has sent one
    request. *)
Lemma poll_iter_leave (st : poll_locals) (tr tr' : trace)
    (r : poll_status) :
  iter st tr = Leave r tr' ->
  tr' = (tr ++ [EvClock (clock tr);
                EvRequest (detail_request py_repr self)])%list
  /\ r <> Looping.
Proof.
  unfold poll_iter.
  pose proof (fetch_status_trace (tr ++ [EvClock (clock tr)])) as T.
  destruct (fetch _) as [[e|status] tr2]; simpl in T; subst tr2;
    rewrite <- app_assoc; simpl.
  { intros [= <- <-]. split; [reflexivity|discriminate]. }
  destruct (Py.contains return_on status) as [e|[|]];
    try (intros [= <- <-]; split; [reflexivity|discriminate]).
  destruct (Py.contains continue_on status) as [e|[|]];
    try (intros [= <- <-]; split; [reflexivity|discriminate]).
  destruct (timed_out st timeout);
    [intros [= <- <-]; split; [reflexivity|discriminate]|discriminate].
Qed.

(** An iteration that goes round again has found the wait within the
    timeout, has slept the current backoff, and has doubled it up to 10. *)
Lemma poll_iter_again (st st' : poll_locals) (tr tr' : trace) :
  iter st tr = Again st' tr' ->
  let tr2 := (tr ++ [EvClock (clock tr);
                     EvRequest (detail_request py_repr self)])%list in
  timed_out st timeout = false
  /\ st' = after_sleep st (clock tr) (clock tr2)
  /\ tr' = (tr2 ++ [EvClock (clock tr2); EvSleep (backoff st)])%list.
Proof.
  unfold poll_iter.
  pose proof (fetch_status_trace (tr ++ [EvClock (clock tr)])) as T.
  destruct (fetch _) as [[e|status] tr2]; simpl in T; subst tr2;
    rewrite <- app_assoc; simpl; [discriminate|].
  destruct (Py.contains return_on status) as [e|[|]]; try discriminate.
  destruct (Py.contains continue_on status) as [e|[|]]; try discriminate.
  destruct (timed_out st timeout); [discriminate|].
  intros [= <- <-]. rewrite <- !app_assoc. simpl. auto.
Qed.

(** A run that is still looping goes on from where it stands. *)
Lemma poll_loop_resume (n m : nat) :
  forall (st st' : poll_locals) (tr tr' : trace),
    loop n self return_on continue_on timeout st tr = (Looping, st', tr') ->
    loop (n + m) self return_on continue_on timeout st tr
    = loop m self return_on continue_on timeout st' tr'.
Proof.
  induction n as [|n IH]; intros st st' tr tr' H.
  - simpl in H. injection H as <- <-. reflexivity.
  - change (S n + m)%nat with (S (n + m)).
    rewrite poll_loop_unfold in *.
    destruct (iter st tr) as [r tr1|st1 tr1] eqn:I.
    + apply poll_iter_leave in I. destruct I as [_ I].
      injection H as -> _ _. contradiction.
    + now apply IH.
Qed.

(** A run that has left the loop is not changed by more fuel. *)
Lemma poll_loop_done (n m : nat) :
  forall (st st' : poll_locals) (tr tr' : trace) (r : poll_status),
    loop n self return_on continue_on timeout st tr = (r, st', tr') ->
    r <> Looping ->
    loop (n + m) self return_on continue_on timeout st tr = (r, st', tr').
Proof.
  induction n as [|n IH]; intros st st' tr tr' r H R.
  - simpl in H. injection H as <- _ _. contradiction.
  - change (S n + m)%nat with (S (n + m)).
    rewrite poll_loop_unfold in *.
    destruct (iter st tr) as [r1 tr1|st1 tr1]; [exact H|].
    now apply IH.
Qed.

(** The sleeps of a run are backoffs, doubled up to 10 from the backoff
    the run starts with. *)
Lemma poll_loop_backoffs (fuel : nat) :
  forall (st st' : poll_locals) (tr tr' : trace) (r : poll_status),
    loop fuel self return_on continue_on timeout st tr = (r, st', tr') ->
    exists k, (k <= fuel)%nat
              /\ sleeps tr' = sleeps tr ++ backoffs (backoff st) k.
Proof.
  induction fuel as [|fuel IH]; intros st st' tr tr' r H.
  - injection H as _ _ <-. exists O. split; [lia|].
    simpl. now rewrite app_nil_r.
  - rewrite poll_loop_unfold in H.
    destruct (iter st tr) as [r1 tr1|st1 tr1] eqn:I.
    + apply poll_iter_leave in I. destruct I as [-> _].
      injection H as _ _ <-. exists O. split; [lia|].
      rewrite sleeps_app. reflexivity.
    + apply poll_iter_again in I. destruct I as (_ & -> & ->).
      apply IH in H. destruct H as [k [Hk Hs]].
      exists (S k). split; [lia|].
      rewrite Hs, !sleeps_app. simpl. now rewrite app_nil_r, <- app_assoc.
Qed.

Lemma backoffs_10 (k n : nat) :
  backoffs 10 k = map backoff_seq (seq (S (S n)) k).
Proof.
  revert n. induction k as [|k IH]; intro n; [reflexivity|].
  simpl. f_equal. apply IH.
Qed.

(** From 3 the backoffs are the sequence of the specification. *)
Lemma backoffs_3 (k : nat) : backoffs 3 k = map backoff_seq (seq 0 k).
Proof.
  destruct k as [|[|k]]; try reflexivity.
  simpl. do 2 f_equal. apply backoffs_10.
Qed.

(** C2.  In a [poll] call, however long it runs and however it ends, the
    durations slept are, in order, an initial segment of 3, 6, 10, 10,
    10, ...: the backoff starts at 3, doubles after each sleep up to 10 and
    never goes back. *)
Theorem poll_backoff_sequence (fuel : nat) (tr : trace) :
  exists k, (k <= fuel)%nat
    /\ sleeps (snd (poll session clock json_loads py_repr fuel self
                      return_on continue_on timeout tr))
       = sleeps tr ++ map backoff_seq (seq 0 k).
Proof.
  unfold poll.
  destruct (loop fuel self return_on continue_on timeout poll_init tr)
    as [[r st'] tr'] eqn:H.
  apply poll_loop_backoffs in H. destruct H as [k [Hk Hs]].
  exists k. split; [exact Hk|].
  simpl. rewrite Hs. simpl. now rewrite backoffs_3.
Qed.

(** What an iteration does with the status it fetches. *)
Lemma poll_iter_fetched (st : poll_locals) (tr : trace) (status : pyval) :
  fst (fetch (tr ++ [EvClock (clock tr)])) = inr status ->
  iter st tr =
  let tr2 := tr ++ [EvClock (clock tr);
                    EvRequest (detail_request py_repr self)] in
  match Py.contains return_on status with
  | inl e => Leave (Raised e) tr2
  | inr true => Leave Returned tr2
  | inr false =>
      match Py.contains continue_on status with
      | inl e => Leave (Raised e) tr2
      | inr true =>
          if timed_out st timeout then
            Leave (Raised (MAASError
                             (msg_timeout return_on timeout status))) tr2
          else
            Again (after_sleep st (clock tr) (clock tr2))
                  (tr2 ++ [EvClock (clock tr2); EvSleep (backoff st)])
      | inr false =>
          Leave (Raised (MAASError (msg_unexpected_status status))) tr2
      end
  end.
Proof.
  intro F. unfold poll_iter.
  pose proof (fetch_status_trace (tr ++ [EvClock (clock tr)])) as T.
  destruct (fetch _) as [[e|s] tr2]; simpl in F, T; [discriminate|].
  injection F as ->. subst tr2. rewrite <- !app_assoc. reflexivity.
Qed.

(** C3.  When the first status fetched is one of [return_on], [poll]
    returns at that first check: it has read the clock and sent one
    request, it has not slept, and [wait_total] is still 0. *)
Theorem poll_returns_at_once (fuel : nat) (tr : trace) (status : pyval) :
  fst (fetch (tr ++ [EvClock (clock tr)])) = inr status ->
  Py.contains return_on status = inr true ->
  let tr' := tr ++ [EvClock (clock tr);
                    EvRequest (detail_request py_repr self)] in
  poll session clock json_loads py_repr (S fuel) self return_on
    continue_on timeout tr
  = (Returned, PollLocals 0 3, tr')
  /\ sleeps tr' = sleeps tr.
Proof.
  intros F R tr'. split.
  - unfold poll. rewrite poll_loop_unfold, (poll_iter_fetched _ _ _ F), R.
    reflexivity.
  - unfold tr'. rewrite sleeps_app. simpl. apply app_nil_r.
Qed.

(** C4.  Whenever a check of a [poll] call, the first or a later one,
    fetches a status that is neither in [return_on] nor in [continue_on],
    the call ends there with the unexpected-status error carrying that
    status: whatever the wait accumulated, it does not sleep and sends no
    further request. *)
Theorem poll_unexpected_status (n : nat) (tr0 tr : trace)
    (st : poll_locals) (status : pyval) :
  poll session clock json_loads py_repr n self return_on continue_on
    timeout tr0 = (Looping, st, tr) ->
  fst (fetch (tr ++ [EvClock (clock tr)])) = inr status ->
  Py.contains return_on status = inr false ->
  Py.contains continue_on status = inr false ->
  let tr' := tr ++ [EvClock (clock tr);
                    EvRequest (detail_request py_repr self)] in
  (forall m, (n < m)%nat ->
     poll session clock json_loads py_repr m self return_on continue_on
       timeout tr0
     = (Raised (MAASError (Msg "unexpected status: %s" [AVal status])),
        st, tr'))
  /\ sleeps tr' = sleeps tr
  /\ requests tr' = requests tr ++ [detail_request py_repr self].
Proof.
  intros L F R C tr'. repeat split.
  - intros m Hm. replace m with (n + S (m - n - 1))%nat by lia.
    unfold poll in *. rewrite (poll_loop_resume _ _ _ _ _ _ L).
    rewrite poll_loop_unfold, (poll_iter_fetched _ _ _ F), R, C.
    reflexivity.
  - unfold tr'. rewrite sleeps_app. simpl. apply app_nil_r.
  - unfold tr'. rewrite requests_app. reflexivity.
Qed.

Lemma contains_raises (c : container) (v : pyval) (e : exn) :
  Py.contains c v = inl e -> e = TypeError.
Proof.
  destruct c, v; simpl; try discriminate; now intros [= <-].
Qed.

(** The exceptions a run of the loop can end with: what the fetch raised,
    the [TypeError] of a membership test, or one of the two errors [poll]
    raises itself. *)
Lemma poll_loop_raises (fuel : nat) :
  forall (st st' : poll_locals) (tr tr' : trace) (e : exn),
    loop fuel self return_on continue_on timeout st tr
    = (Raised e, st', tr') ->
    (exists tr1, fst (fetch tr1) = inl e)
    \/ e = TypeError
    \/ (exists status,
           e = MAASError (msg_timeout return_on timeout status))
    \/ (exists status, e = MAASError (msg_unexpected_status status)).
Proof.
  induction fuel as [|fuel IH]; intros st st' tr tr' e H;
    [discriminate|].
  rewrite poll_loop_unfold in H.
  destruct (iter st tr) as [r1 tr1|st1 tr1] eqn:I; [|now apply IH in H].
  injection H as -> _ _. clear IH. unfold poll_iter in I.
  destruct (fetch (tr ++ [EvClock (clock tr)])) as [[e0|status] tr2] eqn:F.
  { injection I as <- _. left. exists (tr ++ [EvClock (clock tr)]).
    now rewrite F. }
  destruct (Py.contains return_on status) as [e0|[|]] eqn:R.
  { injection I as <- _. right. left. eapply contains_raises, R. }
  { discriminate. }
  destruct (Py.contains continue_on status) as [e0|[|]] eqn:C.
  { injection I as <- _. right. left. eapply contains_raises, C. }
  { destruct (timed_out st timeout); [|discriminate].
    injection I as <- _. right. right. left. now exists status. }
  injection I as <- _. right. right. right. now exists status.
Qed.

(** C7 (amended).  An exception a [poll] call ends with is propagated
    from the fetch, or is the [TypeError] of a membership test, or is one
    of the two failures [poll] raises itself, the timeout and the
    unexpected status.  These two are of the class [MAASError], the very
    class of every error of the decoder; what tells them from a decoder
    error, and from each other, is the format of the message. *)
Theorem poll_failures_are_MAASError (fuel : nat) (st st' : poll_locals)
    (tr tr' : trace) (e : exn) (res : response) (ok_check : bool)
    (e' : exn) :
  loop fuel self return_on continue_on timeout st tr
  = (Raised e, st', tr') ->
  _get_json json_loads res ok_check = inl e' ->
  class_of e' = ClsMAASError
  /\ ((exists tr1, fst (fetch tr1) = inl e)
      \/ e = TypeError
      \/ (class_of e = class_of e'
          /\ exists m m',
               e = MAASError m /\ e' = MAASError m'
               /\ fmt m <> fmt m'
               /\ ((exists status,
                       m = msg_timeout return_on timeout status)
                   \/ (exists status, m = msg_unexpected_status status))))
  /\ (forall status status',
         fmt (msg_timeout return_on timeout status)
         <> fmt (msg_unexpected_status status')).
Proof.
  intros H D. apply poll_loop_raises in H.
  apply _get_json_raises_MAASError in D.
  split; [destruct D as [-> | [-> | ->]]; reflexivity|].
  split; [|intros; discriminate].
  destruct H as [H | [H | [[status ->] | [status ->]]]];
    [now left | right; now left | |].
  - right. right.
    split; [destruct D as [-> | [-> | ->]]; reflexivity|].
    destruct D as [-> | [-> | ->]];
      eexists _, _; (split; [reflexivity|]); (split; [reflexivity|]);
      (split; [discriminate|]); left; now exists status.
  - right. right.
    split; [destruct D as [-> | [-> | ->]]; reflexivity|].
    destruct D as [-> | [-> | ->]];
      eexists _, _; (split; [reflexivity|]); (split; [reflexivity|]);
      (split; [discriminate|]); right; now exists status.
Qed.

Lemma timed_out_true (st : poll_locals) :
  timed_out st timeout = true <-> timeout < wait_total st.
Proof.
  unfold timed_out. rewrite negb_true_iff. split.
  - intro H. apply Qnot_le_lt. intro L.
    apply Qle_bool_iff in L. congruence.
  - intro H. destruct (Qle_bool (wait_total st) timeout) eqn:E;
      [|reflexivity].
    apply Qle_bool_iff in E. exfalso. lra.
Qed.

Lemma timed_out_false (st : poll_locals) :
  timed_out st timeout = false <-> wait_total st <= timeout.
Proof.
  unfold timed_out. rewrite negb_false_iff. apply Qle_bool_iff.
Qed.

(** A sleep adds at least the backoff to the wait. *)
Lemma after_sleep_wait (st : poll_locals) (t t' : Q) :
  wait_total st + inject_Z (backoff st)
  <= wait_total (after_sleep st t t').
Proof.
  simpl. pose proof (Q.le_max_r (t' - t) 0). lra.
Qed.

Lemma after_sleep_backoff (st : poll_locals) (t t' : Q) :
  (3 <= backoff st)%Z -> (3 <= backoff (after_sleep st t t'))%Z.
Proof. simpl. lia. Qed.

Lemma backoffs_length (b : Z) (k : nat) : List.length (backoffs b k) = k.
Proof.
  revert b. induction k as [|k IH]; intro b; simpl; [reflexivity|].
  now rewrite IH.
Qed.


End PollFacts.

(** * The client in a concrete world *)

Lemma fetch_stuck_X (tr : trace) :
  fetch_status (Sim.stuck "X") Json.loads Sim.py_repr Sim.node tr
  = (inr (PStr "X"),
     (tr ++ [EvRequest (detail_request Sim.py_repr Sim.node)])%list).
Proof.
  unfold fetch_status, get_detail, bind, Client_get, send, lift, Sim.stuck,
    Sim.session.
  destruct (List.length (requests tr)); reflexivity.
Qed.

Lemma poll_returns_at_once_witness :
  poll (Sim.stuck "Ready") (Sim.clock (1 # 2)) Json.loads Sim.py_repr 1
    Sim.node (PySet ["Ready"]) (PySet ["Deploying"]) 60 []
  = (Returned, PollLocals 0 3,
     [EvClock 0; EvRequest (detail_request Sim.py_repr Sim.node)]).
Proof.
  refine (proj1 (poll_returns_at_once (Sim.stuck "Ready") (Sim.clock (1 # 2))
                   Json.loads Sim.py_repr Sim.node (PySet ["Ready"])
                   (PySet ["Deploying"]) 60 0 [] (PStr "Ready") _ _)).
  - reflexivity.
  - reflexivity.
Defined.

Lemma poll_unexpected_status_witness :
  fst (fst (poll Sim.breaks (Sim.clock (1 # 2)) Json.loads Sim.py_repr 3
              Sim.node (PySet ["Deployed"]) (PySet ["Deploying"]) 60 []))
  = Raised (MAASError (Msg "unexpected status: %s" [AVal (PStr "Broken")]))
  /\ sleeps (snd (poll Sim.breaks (Sim.clock (1 # 2)) Json.loads Sim.py_repr
                    3 Sim.node (PySet ["Deployed"]) (PySet ["Deploying"])
                    60 []))
     = [3; 6]%Z.
Proof.
  pose proof (poll_unexpected_status Sim.breaks (Sim.clock (1 # 2))
                Json.loads Sim.py_repr Sim.node (PySet ["Deployed"])
                (PySet ["Deploying"]) 60 2 []
                (snd Sim.breaks_after_two) (snd (fst Sim.breaks_after_two))
                (PStr "Broken")) as H.
  destruct H as [H _].
  - vm_compute. reflexivity.
  - vm_compute. reflexivity.
  - reflexivity.
  - reflexivity.
  - rewrite (H 3%nat ltac:(lia)). split; [reflexivity|].
    vm_compute. reflexivity.
Defined.

(** The claim that the failures of [poll] are of kinds other than the kind
    of the decoder's errors fails: the timeout, the unexpected status and a
    refused response are all of the one class [MAASError]. *)
Lemma poll_and_decoder_errors_same_class :
  exists e_timeout e_unexpected e_decoder,
    fst (fst (poll (Sim.stuck "X") (Sim.clock 0) Json.loads Sim.py_repr 3
                Sim.node (PySet ["Y"]) (PySet ["X"]) 5 []))
    = Raised e_timeout
    /\ e_timeout = MAASError (msg_timeout (PySet ["Y"]) 5 (PStr "X"))
    /\ fst (fst (poll Sim.breaks (Sim.clock 0) Json.loads Sim.py_repr 3
                   Sim.node (PySet ["Deployed"]) (PySet ["Deploying"])
                   60 []))
       = Raised e_unexpected
    /\ e_unexpected = MAASError (msg_unexpected_status (PStr "Broken"))
    /\ _get_json Json.loads (Sim.html_response 200 "<html></html>") false
       = inl e_decoder
    /\ class_of e_timeout = class_of e_decoder
    /\ class_of e_unexpected = class_of e_decoder
    /\ class_of e_timeout = class_of e_unexpected.
Proof.
  eexists _, _, _.
  split; [vm_compute; reflexivity|]. split; [reflexivity|].
  split; [vm_compute; reflexivity|]. split; [reflexivity|].
  split; [vm_compute; reflexivity|]. repeat split.
Qed.

Lemma poll_failures_are_MAASError_witness :
  let e := MAASError (msg_timeout (PySet ["Y"]) 5 (PStr "X")) in
  let e' := MAASError (msg_non_json (Sim.html_response 200 "<html></html>")) in
  fst (fst Sim.stuck_after_three) = Raised e
  /\ class_of e = class_of e'
  /\ fmt (msg_timeout (PySet ["Y"]) 5 (PStr "X"))
     <> fmt (msg_unexpected_status (PStr "X")).
Proof.
  cbv zeta.
  destruct (poll_failures_are_MAASError (Sim.stuck "X") (Sim.clock 0)
              Json.loads Sim.py_repr Sim.node (PySet ["Y"]) (PySet ["X"])
              5 3 poll_init (snd (fst Sim.stuck_after_three)) []
              (snd Sim.stuck_after_three)
              (MAASError (msg_timeout (PySet ["Y"]) 5 (PStr "X")))
              (Sim.html_response 200 "<html></html>") false
              (MAASError (msg_non_json
                            (Sim.html_response 200 "<html></html>"))))
    as (C & _ & F).
  - vm_compute. reflexivity.
  - vm_compute. reflexivity.
  - split; [reflexivity|]. split; [symmetry; exact C|]. apply F.
Defined.

(** * Further properties of the decoder *)

Lemma media_type_parameters (a p : string) :
  count_char ";" a = O -> media_type (a ++ String ";" p) = a.
Proof.
  induction a as [|c a IH]; simpl; [reflexivity|].
  destruct (Ascii.eqb c ";"); [discriminate|].
  intro H. now rewrite IH.
Qed.

Section DecoderMore.

Variable json_loads : string -> option pyval.

(** X1.  Which error the decoder ends with.  With the success check on and
    a failing status it is the status error, carrying status and body only,
    whatever the headers and the body are; otherwise, with a missing or
    non-JSON content type, the content-type error; otherwise, with a body the
    JSON reader refuses, the parse error carrying status, headers and body.
    No other error arises. *)
Theorem _get_json_error_cases (res : response) (ok_check : bool) (e : exn) :
  _get_json json_loads res ok_check = inl e <->
  (ok_check = true /\ ok res = false
   /\ e = MAASError (Msg "status=%s content=%s"
                         [AInt (status_code res); AStr (text res)]))
  \/ ((ok_check = false \/ ok res = true)
      /\ not_json_content_type
           (headers_get (resp_headers res) "content-type") = true
      /\ e = MAASError
               (Msg ("unexpected non-json response: "
                     ++ "status=%s headers=%s content=%s")
                    [AInt (status_code res); AHeaders (resp_headers res);
                     AStr (text res)]))
  \/ ((ok_check = false \/ ok res = true)
      /\ not_json_content_type
           (headers_get (resp_headers res) "content-type") = false
      /\ json_loads (text res) = None
      /\ e = MAASError
               (Msg "failed to parse json: status=%s headers=%s content=%s"
                    [AInt (status_code res); AHeaders (resp_headers res);
                     AStr (text res)])).
Proof.
  unfold _get_json, msg_bad_status, msg_non_json, msg_parse_failed.
  split.
  - intro H.
    destruct (ok_check && negb (ok res)) eqn:G.
    + apply andb_true_iff in G. destruct G as [G1 G2].
      apply negb_true_iff in G2. injection H as <-. left. auto.
    + assert (Hok : ok_check = false \/ ok res = true).
      { apply andb_false_iff in G. destruct G as [G|G]; [now left|].
        apply negb_false_iff in G. now right. }
      destruct (not_json_content_type _) eqn:C.
      * injection H as <-. right. left. auto.
      * destruct (json_loads (text res)) eqn:L; [discriminate|].
        injection H as <-. right. right. auto.
  - intros [(-> & Hok & ->) | [(Hok & Hct & ->) | (Hok & Hct & Hl & ->)]].
    + rewrite Hok. reflexivity.
    + assert (G : ok_check && negb (ok res) = false)
        by (destruct Hok as [-> | ->]; [reflexivity|apply andb_false_r]).
      now rewrite G, Hct.
    + assert (G : ok_check && negb (ok res) = false)
        by (destruct Hok as [-> | ->]; [reflexivity|apply andb_false_r]).
      now rewrite G, Hct, Hl.
Qed.

(** X2.  When the decoder returns.  It returns [v] exactly when the status
    passes the success check (if asked for), the content-type header is
    present with media type [application/json], and the JSON reader reads
    the body as [v].  Without the success check the status plays no part. *)
Theorem _get_json_returns_iff (res : response) (ok_check : bool)
    (v : pyval) :
  _get_json json_loads res ok_check = inr v <->
  (ok_check = false \/ ok res = true)
  /\ (exists ct, headers_get (resp_headers res) "content-type" = Some ct
                 /\ media_type ct = "application/json")
  /\ json_loads (text res) = Some v.
Proof.
  rewrite <- json_content_type_spec. unfold _get_json. split.
  - intro H.
    destruct (ok_check && negb (ok res)) eqn:G; [discriminate|].
    assert (Hok : ok_check = false \/ ok res = true).
    { apply andb_false_iff in G. destruct G as [G|G]; [now left|].
      apply negb_false_iff in G. now right. }
    destruct (not_json_content_type _) eqn:C; [discriminate|].
    destruct (json_loads (text res)) eqn:L; [|discriminate].
    injection H as <-. auto.
  - intros (Hok & Hct & Hl).
    assert (G : ok_check && negb (ok res) = false)
      by (destruct Hok as [-> | ->]; [reflexivity|apply andb_false_r]).
    now rewrite G, Hct, Hl.
Qed.

(** X3.  Parameters after the media type are ignored: a content type
    [application/json;...] is JSON whatever follows the semicolon, so the
    outcome is that of reading the body. *)
Theorem _get_json_ignores_parameters (res : response) (ok_check : bool)
    (params : string) :
  headers_get (resp_headers res) "content-type"
  = Some ("application/json" ++ String ";" params) ->
  ok_check = false \/ ok res = true ->
  _get_json json_loads res ok_check =
  match json_loads (text res) with
  | Some v => inr v
  | None => inl (MAASError (msg_parse_failed res))
  end.
Proof.
  intros H Hok. unfold _get_json.
  assert (G : ok_check && negb (ok res) = false)
    by (destruct Hok as [-> | ->]; [reflexivity|apply andb_false_r]).
  rewrite G, H.
  assert (J : not_json_content_type
                (Some ("application/json" ++ String ";" params)) = false).
  { apply json_content_type_spec. eexists. split; [reflexivity|].
    apply media_type_parameters. reflexivity. }
  now rewrite J.
Qed.

End DecoderMore.

Lemma _get_json_error_cases_witness :
  _get_json Json.loads (Sim.json_response 503 (PDict [])) true
  = inl (MAASError (Msg "status=%s content=%s" [AInt 503; AStr "{}"])).
Proof.
  apply (proj2 (_get_json_error_cases Json.loads
                  (Sim.json_response 503 (PDict [])) true _)).
  left. repeat split; reflexivity.
Defined.

Lemma _get_json_returns_iff_witness :
  _get_json Json.loads (Sim.json_response 404 (PList [])) false
  = inr (PList []).
Proof.
  apply (proj2 (_get_json_returns_iff Json.loads
                  (Sim.json_response 404 (PList [])) false (PList []))).
  split; [now left|]. split; [|reflexivity].
  exists "application/json; charset=utf-8". split; reflexivity.
Defined.

Lemma _get_json_ignores_parameters_witness :
  _get_json Json.loads (Sim.json_response 200 (PInt 7)) true = inr (PInt 7).
Proof.
  apply (_get_json_ignores_parameters Json.loads
           (Sim.json_response 200 (PInt 7)) true " charset=utf-8").
  - reflexivity.
  - now right.
Defined.

(** * Further properties of the client *)

Lemma split_length (c : ascii) (s : string) :
  List.length (PyString.split c s) = S (count_char c s).
Proof.
  induction s as [|d s IH]; simpl; [reflexivity|].
  destruct (Ascii.eqb d c); simpl; [now rewrite IH|].
  destruct (PyString.split c s) as [|w ws]; [discriminate|exact IH].
Qed.

Lemma join_split (c : ascii) (s : string) : join c (PyString.split c s) = s.
Proof.
  induction s as [|d s IH]; simpl; [reflexivity|].
  destruct (Ascii.eqb_spec d c) as [->|N].
  - pose proof (split_length c s) as L.
    destruct (PyString.split c s) as [|w ws]; [discriminate|].
    simpl. simpl in IH. now rewrite IH.
  - pose proof (split_length c s) as L.
    destruct (PyString.split c s) as [|w ws]; [discriminate|].
    destruct ws as [|w' ws']; simpl in *; now rewrite IH.
Qed.

Lemma split_parts (c : ascii) (s : string) :
  Forall (fun w => count_char c w = O) (PyString.split c s).
Proof.
  induction s as [|d s IH]; simpl.
  - constructor; [reflexivity|constructor].
  - destruct (Ascii.eqb d c) eqn:E.
    + constructor; [reflexivity|exact IH].
    + destruct (PyString.split c s) as [|w ws]; simpl.
      * constructor; [simpl; now rewrite E|constructor].
      * inversion IH; subst. constructor; [simpl; now rewrite E|assumption].
Qed.

Lemma rstrip_last (c : ascii) (s : string) :
  last_char (PyString.rstrip c s) <> Some c.
Proof.
  induction s as [|d s IH]; simpl; [discriminate|].
  destruct (PyString.rstrip c s) as [|a k] eqn:E.
  - destruct (Ascii.eqb_spec d c) as [->|N]; simpl; [discriminate|].
    intros [= H]. contradiction.
  - exact IH.
Qed.

Lemma rstrip_suffix (c : ascii) (s : string) :
  exists n, s = PyString.rstrip c s ++ copies n c.
Proof.
  induction s as [|d s [n IH]]; simpl; [now exists O|].
  destruct (PyString.rstrip c s) as [|a k] eqn:E.
  - destruct (Ascii.eqb_spec d c) as [->|N].
    + exists (S n). simpl. now rewrite IH at 1.
    + exists n. simpl. now rewrite IH at 1.
  - exists n. simpl. now rewrite IH at 1.
Qed.

Lemma lstrip_first (c : ascii) (s : string) :
  first_char (PyString.lstrip c s) <> Some c.
Proof.
  induction s as [|d s IH]; simpl; [discriminate|].
  destruct (Ascii.eqb_spec d c) as [->|N]; [exact IH|].
  simpl. intros [= H]. contradiction.
Qed.

Lemma lstrip_prefix (c : ascii) (s : string) :
  exists n, s = copies n c ++ PyString.lstrip c s.
Proof.
  induction s as [|d s [n IH]]; simpl; [now exists O|].
  destruct (Ascii.eqb_spec d c) as [->|N].
  - exists (S n). simpl. now rewrite IH at 1.
  - now exists O.
Qed.

Lemma lstrip_copies (c : ascii) (n : nat) (s : string) :
  PyString.lstrip c (copies n c ++ s) = PyString.lstrip c s.
Proof.
  induction n as [|n IH]; simpl; [reflexivity|].
  now rewrite Ascii.eqb_refl.
Qed.

(** X4.  A client is built exactly from an API key of three parts: with two
    colons in the key the parts are what the colons separate (joined by
    colons they give the key back, and none holds a colon); with any other
    number of colons the constructor ends with [ValueError]. *)
Theorem Client_init_api_key (base api_key : string) :
  (count_char ":" api_key = 2%nat ->
   exists ck okey osecret,
     Client_init base api_key
     = inr (MkClient (PyString.rstrip "/" base) ck okey osecret)
     /\ api_key = ck ++ ":" ++ okey ++ ":" ++ osecret
     /\ count_char ":" ck = O /\ count_char ":" okey = O
     /\ count_char ":" osecret = O)
  /\ (count_char ":" api_key <> 2%nat ->
      Client_init base api_key = inl ValueError).
Proof.
  pose proof (split_length ":" api_key) as L.
  pose proof (join_split ":" api_key) as J.
  pose proof (split_parts ":" api_key) as P.
  unfold Client_init.
  destruct (PyString.split ":" api_key) as [|a [|b [|c [|d l]]]];
    simpl in L; split; intro H; try lia; try reflexivity.
  exists a, b, c. split; [reflexivity|]. split; [now rewrite <- J|].
  inversion P as [|? ? Pa P1]; subst.
  inversion P1 as [|? ? Pb P2]; subst.
  inversion P2 as [|? ? Pc P3]; subst. auto.
Qed.

Lemma Client_init_keeps (base api_key : string) (c : Client) :
  Client_init base api_key = inr c -> url c = PyString.rstrip "/" base.
Proof.
  unfold Client_init.
  destruct (PyString.split ":" api_key) as [|a [|b [|d [|e l]]]];
    try discriminate.
  now intros [= <-].
Qed.

(** X5.  The base URL a client keeps is the one given without its trailing
    slashes: it does not end with a slash, and only slashes were removed. *)
Theorem Client_init_url (base api_key : string) (c : Client) :
  Client_init base api_key = inr c ->
  last_char (url c) <> Some "/"%char
  /\ exists n, base = url c ++ copies n "/".
Proof.
  intro H. rewrite (Client_init_keeps _ _ _ H).
  split; [apply rstrip_last|apply rstrip_suffix].
Qed.

(** X6.  The URL of a request is the base, one slash, and the path without
    its leading slashes: however many slashes the path starts with, the URL
    is the same, and for a client built by the constructor neither side of
    the joining slash is a slash. *)
Theorem _url_one_slash (base api_key : string) (c : Client)
    (path : string) :
  Client_init base api_key = inr c ->
  exists n rest,
    path = copies n "/" ++ rest
    /\ first_char rest <> Some "/"%char
    /\ last_char (url c) <> Some "/"%char
    /\ forall m, _url c (copies m "/" ++ rest) = url c ++ "/" ++ rest.
Proof.
  intro H.
  assert (L : last_char (url c) <> Some "/"%char)
    by (rewrite (Client_init_keeps _ _ _ H); apply rstrip_last).
  destruct (lstrip_prefix "/" path) as [n E].
  exists n, (PyString.lstrip "/" path).
  split; [exact E|]. split; [apply lstrip_first|]. split; [exact L|].
  intro m. unfold _url. rewrite lstrip_copies.
  destruct (lstrip_prefix "/" (PyString.lstrip "/" path)) as [k Ek].
  f_equal. f_equal.
  destruct k as [|k]; [simpl in Ek; now rewrite <- Ek|].
  pose proof (lstrip_first "/" path) as F. rewrite Ek in F.
  simpl in F. now contradiction F.
Qed.

Lemma partition_absent (c : ascii) (s : string) :
  count_char c s = O ->
  PyString.partition c s = (s, EmptyString, EmptyString).
Proof.
  induction s as [|d s IH]; simpl; [reflexivity|].
  destruct (Ascii.eqb d c); [discriminate|].
  intro H. now rewrite (IH H).
Qed.

Lemma partition_first (c : ascii) (a b : string) :
  count_char c a = O ->
  PyString.partition c (a ++ String c b) = (a, String c EmptyString, b).
Proof.
  induction a as [|d a IH]; simpl.
  - now rewrite Ascii.eqb_refl.
  - destruct (Ascii.eqb d c); [discriminate|].
    intro H. now rewrite (IH H).
Qed.

Section ClientMore.

Variable session : trace -> request -> result response.
Variable json_loads : string -> option pyval.

(** X7.  A lookup sends one GET with no body.  A hostname without a dot is
    looked up by hostname alone; a hostname [short.domain] is looked up by
    hostname [short] and domain [domain], the domain being all that follows
    the first dot; a hostname that ends at its first dot is looked up by
    hostname alone. *)
Theorem get_node_id_query (self : Client) (hostname : string) (tr : trace) :
  exists u,
    snd (get_node_id session json_loads self hostname tr)
    = (tr ++ [EvRequest (Request GET u accept_json NoData)])%list
    /\ (count_char "." hostname = O ->
        u = url self ++ "/nodes/?hostname=" ++ hostname)
    /\ (forall short domain,
           hostname = short ++ "." ++ domain ->
           count_char "." short = O ->
           domain <> "" ->
           u = url self ++ "/nodes/?hostname=" ++ short
               ++ "&domain=" ++ domain)
    /\ (forall short,
           hostname = short ++ "." ->
           count_char "." short = O ->
           u = url self ++ "/nodes/?hostname=" ++ short).
Proof.
  exists (_url self (lookup_path hostname)).
  split; [now rewrite get_node_id_run|].
  unfold _url, lookup_path. repeat split.
  - intro H. rewrite (partition_absent _ _ H). reflexivity.
  - intros short domain -> H D. simpl append.
    rewrite (partition_first _ _ _ H).
    destruct (String.eqb_spec domain ""); [contradiction|reflexivity].
  - intros short -> H. rewrite (partition_first _ _ _ H). reflexivity.
Qed.

(** X8.  When the lookup is answered a list of one entry, the identifier is
    that entry's [system_id]; an entry without that key ends the lookup with
    [KeyError], an entry that is not an object with [TypeError]. *)
Theorem get_node_id_single (self : Client) (hostname : string) (tr : trace)
    (res : response) (node : pyval) :
  session tr (lookup_request self hostname) = inr res ->
  _get_json json_loads res false = inr (PList [node]) ->
  fst (get_node_id session json_loads self hostname tr) =
  match node with
  | PDict kv =>
      match Py.lookup "system_id" kv with
      | Some id => inr id
      | None => inl KeyError
      end
  | _ => inl TypeError
  end.
Proof.
  intros Hs Hd. rewrite get_node_id_run, Hs, Hd.
  cbv beta iota delta [fst]. rewrite pick_node_id_list.
  destruct node; reflexivity.
Qed.

(** X10.  [get_machine] gives a handle exactly when the lookup gives an
    identifier that is true as a condition, and the handle is then on the
    same client with that identifier; an identifier that is false as a
    condition (null, empty, zero) gives [None]; an exception of the lookup
    is passed on. *)
Theorem get_machine_cases (self : Client) (hostname : string) (tr : trace) :
  (forall m,
      fst (get_machine session json_loads self hostname tr) = inr (Some m)
      <-> client m = self
          /\ Py.truthy (system_id m) = true
          /\ fst (get_node_id session json_loads self hostname tr)
             = inr (system_id m))
  /\ (fst (get_machine session json_loads self hostname tr) = inr None
      <-> exists id,
            fst (get_node_id session json_loads self hostname tr) = inr id
            /\ Py.truthy id = false)
  /\ (forall e,
         fst (get_machine session json_loads self hostname tr) = inl e
         <-> fst (get_node_id session json_loads self hostname tr) = inl e).
Proof.
  rewrite get_machine_run. cbv beta iota delta [fst].
  destruct (get_node_id session json_loads self hostname tr)
    as [[e0|id] tr']; cbv beta iota.
  - split; [|split].
    + intro m. split; [discriminate|]. intros (_ & _ & H). discriminate.
    + split; [discriminate|]. intros [id [H _]]. discriminate.
    + intro e. split; intros [= <-]; reflexivity.
  - destruct (Py.truthy id) eqn:T; simpl; (split; [|split]).
    + intro m. split.
      * intros [= <-]. auto.
      * intros (C & _ & [= ->]). destruct m; simpl in *. now subst.
    + split; [discriminate|]. intros [id' [[= <-] T']]. congruence.
    + intro e. split; discriminate.
    + intro m. split; [discriminate|]. intros (_ & T' & [= ->]). congruence.
    + split; [|reflexivity]. intros _. now exists id.
    + intro e. split; discriminate.
Qed.

(** X11.  [enlist_and_commission] does not look at the answer to the
    creation request: whatever the response (an error status, a body that is
    not JSON), it goes on with the lookup, and its outcome is the lookup's.
    Only an exception of the session stops it, and then no lookup is
    sent. *)
Theorem enlist_and_commission_ignores_answer (self : Client)
    (hostname : string) (mac_addresses : list pyval) (power_type : pyval)
    (power_parameters : list (string * pyval)) (tr : trace) :
  let create :=
    enlist_request self hostname mac_addresses power_type power_parameters in
  (forall res,
      session tr create = inr res ->
      enlist_and_commission session json_loads self hostname mac_addresses
        power_type power_parameters tr
      = get_machine session json_loads self hostname
          (tr ++ [EvRequest create])%list)
  /\ (forall e,
         session tr create = inl e ->
         enlist_and_commission session json_loads self hostname
           mac_addresses power_type power_parameters tr
         = (inl e, (tr ++ [EvRequest create])%list)).
Proof.
  intro create. unfold enlist_and_commission, bind, Client_post, send.
  fold (enlist_request self hostname mac_addresses power_type
          power_parameters). fold create.
  split; intros x H; rewrite H; reflexivity.
Qed.

End ClientMore.

(** X9.  The lookup does not check the status of the answer: of two answers
    with the same headers and body, whatever their status codes, one makes
    the lookup return an identifier exactly when the other does, and it is
    the same identifier. *)
Theorem get_node_id_ignores_status
    (session session' : trace -> request -> result response)
    (json_loads : string -> option pyval) (self : Client)
    (hostname : string) (tr : trace) (res res' : response) (id : pyval) :
  session tr (lookup_request self hostname) = inr res ->
  session' tr (lookup_request self hostname) = inr res' ->
  resp_headers res = resp_headers res' ->
  text res = text res' ->
  fst (get_node_id session json_loads self hostname tr) = inr id
  <-> fst (get_node_id session' json_loads self hostname tr) = inr id.
Proof.
  intros H H' Hh Ht. rewrite !get_node_id_run, H, H'.
  unfold _get_json. simpl. rewrite Hh, Ht.
  destruct (not_json_content_type _); [split; discriminate|].
  destruct (json_loads (text res')); [reflexivity|split; discriminate].
Qed.

Lemma filter_none {A} (f : A -> bool) (l : list A) :
  (forall x, In x l -> f x = false) -> filter f l = [].
Proof.
  induction l as [|a l IH]; simpl; [reflexivity|].
  intro H. rewrite (H a) by now left. apply IH. intros x Hx. apply H.
  now right.
Qed.

Lemma filter_all {A} (f : A -> bool) (l : list A) :
  (forall x, In x l -> f x = true) -> filter f l = l.
Proof.
  induction l as [|a l IH]; simpl; [reflexivity|].
  intro H. rewrite (H a) by now left. f_equal. apply IH. intros x Hx.
  apply H. now right.
Qed.

(** X12.  The fields of a creation request.  They start with the hostname
    (its part before the first dot), the architecture [amd64] and the power
    type; the domain field is there exactly when something follows the first
    dot; the fields named [mac_addresses] hold the MAC addresses, all of
    them and in order; the fields whose name starts with [power_parameters_]
    are the power parameters, in order, each under its prefixed key. *)
Theorem enlist_data_fields (hostname : string) (mac_addresses : list pyval)
    (power_type : pyval) (power_parameters : list (string * pyval))
    (short sep domain : string) :
  PyString.partition "." hostname = (short, sep, domain) ->
  let data :=
    enlist_data hostname mac_addresses power_type power_parameters in
  firstn 3 data = [("hostname", PStr short); ("architecture", PStr "amd64");
                   ("power_type", power_type)]
  /\ filter (fun kv => String.eqb (fst kv) "domain") data
     = (if String.eqb domain "" then [] else [("domain", PStr domain)])
  /\ map snd (filter (fun kv => String.eqb (fst kv) "mac_addresses") data)
     = mac_addresses
  /\ filter (fun kv => String.prefix "power_parameters_" (fst kv)) data
     = map (fun kv => ("power_parameters_" ++ fst kv, snd kv))
           power_parameters
  /\ List.length data
     = (3 + (if String.eqb domain "" then 0 else 1)
        + List.length mac_addresses + List.length power_parameters)%nat.
Proof.
  intros P data. unfold data, enlist_data. rewrite P. clear P data.
  set (head := [("hostname", PStr short); ("architecture", PStr "amd64");
                ("power_type", power_type)]).
  set (dom := if String.eqb domain "" then []
              else [("domain", PStr domain)]).
  set (macs := map (fun i : pyval => ("mac_addresses", i)) mac_addresses).
  set (pps := map (fun kv : string * pyval =>
                     (("power_parameters_" ++ fst kv)%string, snd kv))
                  power_parameters).
  assert (Split : forall f : string * pyval -> bool,
             filter f (head ++ dom ++ macs ++ pps)%list
             = (filter f head ++ filter f dom ++ filter f macs
                ++ filter f pps)%list)
    by (intro f; now rewrite !filter_app).
  assert (Macs : forall f : string * pyval -> bool,
             (forall i, f ("mac_addresses", i) = false) ->
             filter f macs = []).
  { intros f Hf. apply filter_none. intros x Hx.
    apply in_map_iff in Hx. destruct Hx as [i [<- _]]. apply Hf. }
  assert (Pps : forall f : string * pyval -> bool,
             (forall k v, f (("power_parameters_" ++ k)%string, v) = false) ->
             filter f pps = []).
  { intros f Hf. apply filter_none. intros x Hx.
    apply in_map_iff in Hx. destruct Hx as [[k v] [<- _]]. apply Hf. }
  split; [reflexivity|]. split; [|split; [|split]].
  - rewrite Split, Macs, Pps by reflexivity.
    unfold dom. destruct (String.eqb domain ""); reflexivity.
  - rewrite Split, Pps by reflexivity.
    assert (D : filter (fun kv => String.eqb (fst kv) "mac_addresses") dom
                = [])
      by (unfold dom; destruct (String.eqb domain ""); reflexivity).
    assert (A : filter (fun kv => String.eqb (fst kv) "mac_addresses") macs
                = macs).
    { apply filter_all. intros x Hx. apply in_map_iff in Hx.
      destruct Hx as [i [<- _]]. reflexivity. }
    rewrite D, A. simpl. rewrite app_nil_r. unfold macs.
    rewrite map_map. simpl. apply map_id.
  - rewrite Split, Macs by reflexivity.
    assert (D : filter (fun kv => String.prefix "power_parameters_" (fst kv))
                  dom = [])
      by (unfold dom; destruct (String.eqb domain ""); reflexivity).
    assert (A : filter (fun kv => String.prefix "power_parameters_" (fst kv))
                  pps = pps).
    { apply filter_all. intros x Hx. apply in_map_iff in Hx.
      destruct Hx as [[k v] [<- _]]. destruct k; reflexivity. }
    rewrite D, A. reflexivity.
  - rewrite !length_app. unfold macs, pps, dom. rewrite !length_map.
    destruct (String.eqb domain ""); simpl; lia.
Qed.

(** * Further properties of the machine operations *)

Lemma string_app_assoc (a b c : string) : (a ++ b) ++ c = a ++ (b ++ c).
Proof.
  induction a as [|x a IH]; simpl; [reflexivity|now rewrite IH].
Qed.

Section MachineMore.

Local Open Scope list_scope.

Variable session : trace -> request -> result response.
Variable clock : trace -> Q.
Variable json_loads : string -> option pyval.
Variable py_repr : pyval -> string.

Variable self : Machine.

(** An operation sends its request and decodes the answer with the success
    check. *)
Lemma lifecycle_call_run (o : lifecycle) (tr : trace) :
  lifecycle_call session json_loads py_repr o self tr =
  (match session tr (lifecycle_request py_repr o self) with
   | inl e => inl e
   | inr res => _get_json json_loads res true
   end,
   tr ++ [EvRequest (lifecycle_request py_repr o self)]).
Proof.
  assert (Run : forall r : request,
             r = lifecycle_request py_repr o self ->
             bind (send session r)
               (fun res => lift (_get_json json_loads res true)) tr
             = (match session tr (lifecycle_request py_repr o self) with
                | inl e => inl e
                | inr res => _get_json json_loads res true
                end,
                tr ++ [EvRequest (lifecycle_request py_repr o self)])).
  { intros r ->. unfold bind, send, lift.
    destruct (session tr _) as [e|res]; [reflexivity|].
    destruct (_get_json json_loads res true); reflexivity. }
  destruct o; apply Run; reflexivity.
Qed.

(** X13.  Every operation of a machine (detail, commission, allocate,
    deploy, release, delete) sends exactly one request, whatever the answer
    and whether it returns or raises: there is no retry.  The request is a
    GET or DELETE on [/machines/<id>/], a POST on that path with
    [?op=commission], [?op=deploy] or [?op=release] and no body, or for
    allocate a POST on [/machines/?op=allocate] with the identifier as the
    [system_id] field. *)
Theorem lifecycle_one_request (o : lifecycle) (tr : trace) :
  let id := py_str py_repr (system_id self) in
  let base := url (client self) in
  snd (lifecycle_call session json_loads py_repr o self tr)
  = tr ++ [EvRequest
             match o with
             | GetDetail =>
                 Request GET (base ++ "/machines/" ++ id ++ "/") accept_json
                   NoData
             | Commission =>
                 Request POST
                   (base ++ "/machines/" ++ id ++ "/?op=commission")
                   accept_json NoData
             | Allocate =>
                 Request POST (base ++ "/machines/?op=allocate") accept_json
                   (Dict [("system_id", system_id self)])
             | Deploy =>
                 Request POST (base ++ "/machines/" ++ id ++ "/?op=deploy")
                   accept_json NoData
             | Release =>
                 Request POST (base ++ "/machines/" ++ id ++ "/?op=release")
                   accept_json NoData
             | Delete =>
                 Request DELETE (base ++ "/machines/" ++ id ++ "/")
                   accept_json NoData
             end].
Proof.
  intros id base. rewrite lifecycle_call_run. unfold snd.
  do 2 f_equal. unfold id, base.
  destruct o; unfold lifecycle_request; simpl;
    rewrite ?string_app_assoc; reflexivity.
Qed.

(** X14.  Every operation of a machine enforces success: an answer with a
    failing status makes it raise the status error, which carries the status
    code and the body, whatever the content type and the body are; an
    exception of the session is passed on. *)
Theorem lifecycle_enforces_success (o : lifecycle) (tr : trace) :
  (forall res,
      session tr (lifecycle_request py_repr o self) = inr res ->
      ok res = false ->
      fst (lifecycle_call session json_loads py_repr o self tr)
      = inl (MAASError (Msg "status=%s content=%s"
                            [AInt (status_code res); AStr (text res)])))
  /\ (forall e,
         session tr (lifecycle_request py_repr o self) = inl e ->
         fst (lifecycle_call session json_loads py_repr o self tr) = inl e).
Proof.
  rewrite lifecycle_call_run. unfold fst. split.
  - intros res -> Hok. unfold _get_json. rewrite Hok. reflexivity.
  - intros e ->. reflexivity.
Qed.

(** X15.  Every operation of a machine returns the decoded body of a
    successful JSON answer: when the status is a success status, the media
    type is [application/json] and the JSON reader reads the body as [v],
    the operation returns [v]. *)
Theorem lifecycle_returns_body (o : lifecycle) (tr : trace)
    (res : response) (v : pyval) :
  session tr (lifecycle_request py_repr o self) = inr res ->
  ok res = true ->
  (exists ct, headers_get (resp_headers res) "content-type" = Some ct
              /\ media_type ct = "application/json") ->
  json_loads (text res) = Some v ->
  fst (lifecycle_call session json_loads py_repr o self tr) = inr v.
Proof.
  intros Hs Hok Hct Hl. rewrite lifecycle_call_run, Hs. unfold fst.
  unfold _get_json. rewrite Hok. simpl.
  apply json_content_type_spec in Hct. now rewrite Hct, Hl.
Qed.

End MachineMore.

(** * Further properties of the poll loop *)

Lemma total_app (a b : list Z) : total (a ++ b) = (total a + total b)%Z.
Proof.
  unfold total. induction a as [|x a IH]; simpl; [reflexivity|].
  rewrite IH. lia.
Qed.

Section PollMore.

Local Open Scope list_scope.

Variable session : trace -> request -> result response.
Variable clock : trace -> Q.
Variable json_loads : string -> option pyval.
Variable py_repr : pyval -> string.

Variable self : Machine.
Variables return_on continue_on : container.
Variable timeout : Q.

Local Abbreviation fetch := (fetch_status session json_loads py_repr self).
Local Abbreviation loop :=
  (poll_loop session clock json_loads py_repr).
Local Abbreviation iter :=
  (poll_iter session clock json_loads py_repr self return_on continue_on
     timeout).
Local Abbreviation run :=
  (fun fuel => poll session clock json_loads py_repr fuel self return_on
                 continue_on timeout).
Local Abbreviation detail := (detail_request py_repr self).

(** An iteration whose fetch raises leaves the loop with that exception. *)
Lemma poll_iter_fetch_raises (st : poll_locals) (tr : trace) (e : exn) :
  fst (fetch (tr ++ [EvClock (clock tr)])) = inl e ->
  iter st tr = Leave (Raised e) (tr ++ [EvClock (clock tr); EvRequest detail]).
Proof.
  intro F. unfold poll_iter.
  pose proof (fetch_status_trace session json_loads py_repr self
                (tr ++ [EvClock (clock tr)])) as T.
  destruct (fetch _) as [[e0|s] tr2]; simpl in F, T; [|discriminate].
  injection F as ->. subst tr2. now rewrite <- app_assoc.
Qed.

(** What a run keeps true from one state of the loop to a later one: the
    wait does not decrease, it grows by at least what is slept, and the
    backoff stays between 3 and 10. *)
Lemma poll_loop_wait_invariant (fuel : nat) :
  forall (st st' : poll_locals) (tr tr' : trace) (r : poll_status),
    loop fuel self return_on continue_on timeout st tr = (r, st', tr') ->
    (3 <= backoff st <= 10)%Z ->
    wait_total st <= wait_total st'
    /\ wait_total st + inject_Z (total (sleeps tr'))
       <= wait_total st' + inject_Z (total (sleeps tr))
    /\ (3 <= backoff st' <= 10)%Z.
Proof.
  induction fuel as [|fuel IH]; intros st st' tr tr' r H B.
  - injection H as _ <- <-. repeat split; try lia; lra.
  - rewrite poll_loop_unfold in H.
    destruct (iter st tr) as [r1 tr1|st1 tr1] eqn:I.
    + apply poll_iter_leave in I. destruct I as [-> _].
      injection H as _ <- <-. rewrite sleeps_app. simpl.
      rewrite app_nil_r. repeat split; try lia; lra.
    + apply poll_iter_again in I. destruct I as (_ & -> & ->).
      apply IH in H; [|simpl; lia].
      destruct H as (H1 & H2 & H3).
      rewrite !sleeps_app in H2. simpl in H2.
      rewrite app_nil_r, total_app in H2.
      unfold total at 3 in H2. simpl in H2.
      rewrite Z.add_0_r, inject_Z_plus in H2.
      pose proof (Q.le_max_r (clock
                    (tr ++ [EvClock (clock tr); EvRequest detail])
                  - clock tr) 0) as D.
      assert (B3 : inject_Z 3 <= inject_Z (backoff st))
        by (rewrite <- Zle_Qle; lia).
      change (inject_Z 3) with 3 in B3.
      simpl in H1. repeat split; try lia; lra.
Qed.

(** The loop sleeps only while the wait is within the timeout, so all it
    sleeps, the last sleep included, is at most the timeout plus the largest
    backoff. *)
Lemma poll_loop_sleep_bound (fuel : nat) :
  forall (st st' : poll_locals) (tr tr' : trace) (r : poll_status),
    loop fuel self return_on continue_on timeout st tr = (r, st', tr') ->
    (3 <= backoff st <= 10)%Z ->
    sleeps tr' = sleeps tr
    \/ wait_total st + inject_Z (total (sleeps tr'))
       <= timeout + 10 + inject_Z (total (sleeps tr)).
Proof.
  induction fuel as [|fuel IH]; intros st st' tr tr' r H B.
  - injection H as _ _ <-. now left.
  - rewrite poll_loop_unfold in H.
    destruct (iter st tr) as [r1 tr1|st1 tr1] eqn:I.
    + apply poll_iter_leave in I. destruct I as [-> _].
      injection H as _ _ <-. left. rewrite sleeps_app. simpl.
      apply app_nil_r.
    + apply poll_iter_again in I. destruct I as (W & -> & ->).
      apply timed_out_false in W. right.
      pose proof (Q.le_max_r (clock
                    (tr ++ [EvClock (clock tr); EvRequest detail])
                  - clock tr) 0) as D.
      assert (B10 : inject_Z (backoff st) <= inject_Z 10)
        by (rewrite <- Zle_Qle; lia).
      change (inject_Z 10) with 10 in B10.
      apply IH in H; [|simpl; lia].
      rewrite !sleeps_app in H. simpl in H. rewrite app_nil_r in H.
      destruct H as [H|H].
      * rewrite H, total_app. unfold total at 2. simpl.
        rewrite Z.add_0_r, inject_Z_plus. lra.
      * rewrite total_app in H. unfold total at 3 in H. simpl in H.
        rewrite Z.add_0_r, inject_Z_plus in H. lra.
Qed.

(** Once the wait is above the timeout the loop does not sleep again. *)
Lemma poll_loop_late (fuel : nat) (st st' : poll_locals) (tr tr' : trace)
    (r : poll_status) :
  timeout < wait_total st ->
  loop fuel self return_on continue_on timeout st tr = (r, st', tr') ->
  sleeps tr' = sleeps tr.
Proof.
  intros W H. destruct fuel as [|fuel].
  - now injection H as _ _ <-.
  - rewrite poll_loop_unfold in H.
    destruct (iter st tr) as [r1 tr1|st1 tr1] eqn:I.
    + apply poll_iter_leave in I. destruct I as [-> _].
      injection H as _ _ <-. rewrite sleeps_app. simpl. apply app_nil_r.
    + apply poll_iter_again in I. destruct I as (T & _).
      apply timed_out_false in T. lra.
Qed.

(** The requests of a run are fetches of the machine's detail, one for each
    sleep and one more when the loop is left. *)
Lemma poll_loop_requests (fuel : nat) :
  forall (st st' : poll_locals) (tr tr' : trace) (r : poll_status),
    loop fuel self return_on continue_on timeout st tr = (r, st', tr') ->
    exists k, (k <= fuel)%nat
      /\ sleeps tr' = sleeps tr ++ backoffs (backoff st) k
      /\ requests tr'
         = requests tr
           ++ repeat detail (match r with Looping => k | _ => S k end)
      /\ (r = Looping -> k = fuel).
Proof.
  induction fuel as [|fuel IH]; intros st st' tr tr' r H.
  - injection H as <- _ <-. exists O. simpl.
    rewrite !app_nil_r. auto.
  - rewrite poll_loop_unfold in H.
    destruct (iter st tr) as [r1 tr1|st1 tr1] eqn:I.
    + apply poll_iter_leave in I. destruct I as [-> R].
      injection H as <- _ <-. exists O.
      rewrite sleeps_app, requests_app. simpl. rewrite app_nil_r.
      repeat split; try lia.
      * destruct r1; try reflexivity. contradiction.
      * intros ->. contradiction.
    + apply poll_iter_again in I. destruct I as (_ & -> & ->).
      apply IH in H. destruct H as (k & Hk & Hs & Hr & Hl).
      exists (S k). split; [lia|]. split; [|split].
      * rewrite Hs, !sleeps_app. simpl.
        now rewrite app_nil_r, <- app_assoc.
      * rewrite Hr, !requests_app. simpl. rewrite app_nil_r, <- app_assoc.
        destruct r; reflexivity.
      * intro L. now rewrite (Hl L).
Qed.

(** X16.  An exception of a fetch ends the call at once: at any check, the
    first or a later one, [poll] raises what the fetch raised, without
    sleeping and without a second attempt. *)
Theorem poll_fetch_error_propagates (n : nat) (tr0 tr : trace)
    (st : poll_locals) (e : exn) :
  run n tr0 = (Looping, st, tr) ->
  fst (fetch (tr ++ [EvClock (clock tr)])) = inl e ->
  forall m, (n < m)%nat ->
    run m tr0 = (Raised e, st, tr ++ [EvClock (clock tr); EvRequest detail]).
Proof.
  intros L F m Hm. replace m with (n + S (m - n - 1))%nat by lia.
  unfold poll in *.
  rewrite (poll_loop_resume _ _ _ _ _ _ _ _ _ _ _ _ _ _ L).
  now rewrite poll_loop_unfold, (poll_iter_fetch_raises _ _ _ F).
Qed.

(** X17.  Success comes before the timeout: at any check, a status that is
    one of [return_on] makes [poll] return, however much the accumulated
    wait exceeds the timeout. *)
Theorem poll_returns_even_late (n : nat) (tr0 tr : trace)
    (st : poll_locals) (status : pyval) :
  run n tr0 = (Looping, st, tr) ->
  timeout < wait_total st ->
  fst (fetch (tr ++ [EvClock (clock tr)])) = inr status ->
  Py.contains return_on status = inr true ->
  forall m, (n < m)%nat ->
    run m tr0 = (Returned, st, tr ++ [EvClock (clock tr); EvRequest detail]).
Proof.
  intros L _ F R m Hm. replace m with (n + S (m - n - 1))%nat by lia.
  unfold poll in *.
  rewrite (poll_loop_resume _ _ _ _ _ _ _ _ _ _ _ _ _ _ L).
  rewrite poll_loop_unfold.
  rewrite (poll_iter_fetched _ _ _ _ _ _ _ _ _ _ _ F), R. reflexivity.
Qed.

(** X18.  The timeout error reports the last status: at any check, a status
    to wait on found when the accumulated wait is strictly above the timeout
    makes [poll] raise the timeout error carrying [return_on], the timeout
    and that very status, without sleeping. *)
Theorem poll_timeout_reports_status (n : nat) (tr0 tr : trace)
    (st : poll_locals) (status : pyval) :
  run n tr0 = (Looping, st, tr) ->
  timeout < wait_total st ->
  fst (fetch (tr ++ [EvClock (clock tr)])) = inr status ->
  Py.contains return_on status = inr false ->
  Py.contains continue_on status = inr true ->
  forall m, (n < m)%nat ->
    run m tr0
    = (Raised
         (MAASError
            (Msg ("the machine did not reach the expected status %s within "
                  ++ "the time limit %ds (the last status is %s)")
                 [AContainer return_on; ANum timeout; AVal status])),
       st, tr ++ [EvClock (clock tr); EvRequest detail]).
Proof.
  intros L W F R C m Hm. replace m with (n + S (m - n - 1))%nat by lia.
  unfold poll in *.
  rewrite (poll_loop_resume _ _ _ _ _ _ _ _ _ _ _ _ _ _ L).
  rewrite poll_loop_unfold.
  rewrite (poll_iter_fetched _ _ _ _ _ _ _ _ _ _ _ F), R, C.
  apply timed_out_true in W. cbv zeta. rewrite W. reflexivity.
Qed.




(** X22.  With a negative timeout [poll] never sleeps: the first check
    already finds the wait, 0, above the timeout. *)
Theorem poll_negative_timeout (fuel : nat) (tr tr' : trace)
    (r : poll_status) (st : poll_locals) :
  timeout < 0 ->
  run fuel tr = (r, st, tr') ->
  sleeps tr' = sleeps tr /\ wait_total st = 0.
Proof.
  intros T H. unfold poll in H. split.
  - eapply poll_loop_late; [|exact H]. exact T.
  - destruct fuel as [|fuel]; [now injection H as _ <- _|].
    rewrite poll_loop_unfold in H.
    destruct (iter poll_init tr) as [r1 tr1|st1 tr1] eqn:I.
    + now injection H as _ <- _.
    + apply poll_iter_again in I. destruct I as (W & _).
      apply timed_out_false in W. simpl in W. lra.
Qed.

(** X23.  [poll] only reads: every request it sends is the GET of the
    machine's detail, one for each sleep, and one more for the check at
    which the call returns or raises.  While it loops it has slept once for
    each iteration. *)
Theorem poll_requests (fuel : nat) (tr tr' : trace) (r : poll_status)
    (st : poll_locals) :
  run fuel tr = (r, st, tr') ->
  exists k, (k <= fuel)%nat
    /\ sleeps tr' = sleeps tr ++ map backoff_seq (seq 0 k)
    /\ requests tr'
       = requests tr
         ++ repeat (Request GET
                      (url (client self) ++ "/machines/"
                       ++ py_str py_repr (system_id self) ++ "/")%string
                      accept_json NoData)
                   (match r with Looping => k | _ => S k end)
    /\ (r = Looping -> k = fuel).
Proof.
  intro H. unfold poll in H. apply poll_loop_requests in H.
  destruct H as (k & Hk & Hs & Hr & Hl). exists k.
  split; [exact Hk|]. split; [|split; [|exact Hl]].
  - rewrite Hs. simpl. now rewrite backoffs_3.
  - exact Hr.
Qed.

End PollMore.

Section PollEdge.

Local Open Scope list_scope.

Variable session : trace -> request -> result response.
Variable clock : trace -> Q.
Variable json_loads : string -> option pyval.
Variable py_repr : pyval -> string.

Variable self : Machine.
Variables return_on continue_on : container.
Variable timeout : Q.

(** X24.  The comparison with the timeout is strict: with a timeout of 0
    (or any timeout from 0 up to, not including, 3) and a status to wait on
    at the first two checks, [poll] sleeps once, for 3 units, and raises the
    timeout error, with the status of the second check, at that second
    check. *)
Theorem poll_zero_timeout_sleeps_once (tr : trace) (s1 s2 : pyval) :
  let detail := detail_request py_repr self in
  let ta := tr ++ [EvClock (clock tr); EvRequest detail] in
  let tr1 := ta ++ [EvClock (clock ta); EvSleep 3] in
  fst (fetch_status session json_loads py_repr self
         (tr ++ [EvClock (clock tr)])) = inr s1 ->
  Py.contains return_on s1 = inr false ->
  Py.contains continue_on s1 = inr true ->
  fst (fetch_status session json_loads py_repr self
         (tr1 ++ [EvClock (clock tr1)])) = inr s2 ->
  Py.contains return_on s2 = inr false ->
  Py.contains continue_on s2 = inr true ->
  0 <= timeout ->
  timeout < 3 ->
  exists st' tr',
    fst (fst (poll session clock json_loads py_repr 1 self return_on
                continue_on timeout tr)) = Looping
    /\ (forall m, (2 <= m)%nat ->
          poll session clock json_loads py_repr m self return_on
            continue_on timeout tr
          = (Raised (MAASError (msg_timeout return_on timeout s2)),
             st', tr'))
    /\ sleeps tr' = sleeps tr ++ [3%Z]
    /\ List.length (requests tr') = (List.length (requests tr) + 2)%nat.
Proof.
  intros detail ta tr1 F1 R1 C1 F2 R2 C2 T0 T3. unfold poll.
  set (st1 := after_sleep poll_init (clock tr) (clock ta)).
  assert (W0 : timed_out poll_init timeout = false)
    by (apply timed_out_false; simpl; lra).
  assert (W1 : timed_out st1 timeout = true).
  { apply timed_out_true.
    pose proof (after_sleep_wait poll_init (clock tr) (clock ta)) as G.
    fold st1 in G.
    change (wait_total poll_init + inject_Z (backoff poll_init))
      with (0 + 3) in G.
    lra. }
  assert (Step : forall fuel,
             poll_loop session clock json_loads py_repr (S fuel) self
               return_on continue_on timeout poll_init tr
             = poll_loop session clock json_loads py_repr fuel self
                 return_on continue_on timeout st1 tr1).
  { intro fuel.
    rewrite poll_loop_unfold, (poll_iter_fetched _ _ _ _ _ _ _ _ _ _ _ F1).
    rewrite R1, C1. cbv zeta. rewrite W0. reflexivity. }
  exists st1, (tr1 ++ [EvClock (clock tr1); EvRequest detail]).
  split; [|split; [|split]].
  - rewrite Step. reflexivity.
  - intros [|[|m]] Hm; try lia.
    rewrite Step, poll_loop_unfold.
    rewrite (poll_iter_fetched _ _ _ _ _ _ _ _ _ _ _ F2), R2, C2.
    cbv zeta. rewrite W1. reflexivity.
  - unfold tr1, ta. rewrite !sleeps_app. simpl. now rewrite !app_nil_r.
  - unfold tr1, ta. rewrite !requests_app, !length_app. simpl. lia.
Qed.

End PollEdge.

(** * The further properties in concrete worlds *)

Lemma Client_init_api_key_witness :
  Client_init "http://maas.example/MAAS/api/2.0//" "ck:ok:secret"
  = inr Sim.maas
  /\ Client_init "http://maas.example/MAAS" "ck:ok" = inl ValueError.
Proof.
  pose proof (Client_init_api_key "http://maas.example/MAAS" "ck:ok")
    as [_ Bad].
  split; [reflexivity|]. apply Bad. vm_compute. discriminate.
Defined.

Lemma Client_init_url_witness :
  last_char (url Sim.maas) <> Some "/"%char
  /\ exists n,
       "http://maas.example/MAAS/api/2.0//" = url Sim.maas ++ copies n "/".
Proof.
  apply (Client_init_url "http://maas.example/MAAS/api/2.0//"
           "ck:ok:secret" Sim.maas).
  reflexivity.
Defined.

Lemma _url_one_slash_witness :
  exists n rest,
    "//machines/" = copies n "/" ++ rest
    /\ first_char rest <> Some "/"%char
    /\ last_char (url Sim.maas) <> Some "/"%char
    /\ forall m, _url Sim.maas (copies m "/" ++ rest)
                 = url Sim.maas ++ "/" ++ rest.
Proof.
  apply (_url_one_slash "http://maas.example/MAAS/api/2.0//" "ck:ok:secret"
           Sim.maas "//machines/").
  reflexivity.
Defined.

Lemma get_node_id_query_witness :
  snd (get_node_id (Sim.session [] (Sim.listing [])) Json.loads Sim.maas
         "node1.example.com" [])
  = [EvRequest
       (Request GET
          ("http://maas.example/MAAS/api/2.0"
           ++ "/nodes/?hostname=node1&domain=example.com")
          accept_json NoData)].
Proof.
  destruct (get_node_id_query (Sim.session [] (Sim.listing [])) Json.loads
              Sim.maas "node1.example.com" []) as (u & T & _ & D & _).
  rewrite T.
  rewrite (D "node1" "example.com" eq_refl eq_refl ltac:(discriminate)).
  reflexivity.
Defined.

Lemma get_node_id_single_witness :
  fst (get_node_id
         (Sim.session [] (Sim.json_response 200 (PList [PDict []])))
         Json.loads Sim.maas "node1" [])
  = inl KeyError.
Proof.
  apply (get_node_id_single
           (Sim.session [] (Sim.json_response 200 (PList [PDict []])))
           Json.loads Sim.maas "node1" []
           (Sim.json_response 200 (PList [PDict []])) (PDict [])).
  - reflexivity.
  - vm_compute. reflexivity.
Defined.

Lemma get_node_id_ignores_status_witness :
  fst (get_node_id
         (Sim.session []
            (Sim.json_response 500
               (PList [PDict [("system_id", PStr "abc123")]])))
         Json.loads Sim.maas "node1" [])
  = inr (PStr "abc123").
Proof.
  apply (proj1 (get_node_id_ignores_status
                  (Sim.session []
                     (Sim.json_response 200
                        (PList [PDict [("system_id", PStr "abc123")]])))
                  (Sim.session []
                     (Sim.json_response 500
                        (PList [PDict [("system_id", PStr "abc123")]])))
                  Json.loads Sim.maas "node1" []
                  (Sim.json_response 200
                     (PList [PDict [("system_id", PStr "abc123")]]))
                  (Sim.json_response 500
                     (PList [PDict [("system_id", PStr "abc123")]]))
                  (PStr "abc123") eq_refl eq_refl eq_refl eq_refl)).
  vm_compute. reflexivity.
Defined.

Lemma get_machine_cases_witness :
  fst (get_machine
         (Sim.session []
            (Sim.json_response 200 (PList [PDict [("system_id", PStr "")]])))
         Json.loads Sim.maas "node1" [])
  = inr None.
Proof.
  apply (proj1 (proj2 (get_machine_cases
                         (Sim.session []
                            (Sim.json_response 200
                               (PList [PDict [("system_id", PStr "")]])))
                         Json.loads Sim.maas "node1" []))).
  exists (PStr ""). split; [vm_compute; reflexivity|reflexivity].
Defined.

Lemma enlist_and_commission_ignores_answer_witness :
  enlist_and_commission
    (Sim.session [Sim.html_response 400 "Bad Request"] (Sim.listing []))
    Json.loads Sim.maas "node1" [] (PStr "manual") [] []
  = (inr None,
     [EvRequest (enlist_request Sim.maas "node1" [] (PStr "manual") []);
      EvRequest (lookup_request Sim.maas "node1")]).
Proof.
  rewrite (proj1 (enlist_and_commission_ignores_answer
                    (Sim.session [Sim.html_response 400 "Bad Request"]
                       (Sim.listing []))
                    Json.loads Sim.maas "node1" [] (PStr "manual") [] [])
             (Sim.html_response 400 "Bad Request") eq_refl).
  vm_compute. reflexivity.
Defined.

Lemma enlist_data_fields_witness :
  let data :=
    enlist_data "node1.maas" [PStr "52:54:00:12:34:56"] (PStr "ipmi")
      [("power_address", PStr "10.0.0.9"); ("power_user", PStr "root")] in
  List.length data = 7%nat
  /\ filter (fun kv => String.eqb (fst kv) "domain") data
     = [("domain", PStr "maas")].
Proof.
  cbv zeta.
  destruct (enlist_data_fields "node1.maas" [PStr "52:54:00:12:34:56"]
              (PStr "ipmi")
              [("power_address", PStr "10.0.0.9");
               ("power_user", PStr "root")]
              "node1" "." "maas" eq_refl) as (_ & D & _ & _ & L).
  split; [exact L|exact D].
Defined.

Lemma lifecycle_one_request_witness :
  snd (lifecycle_call Scenario.down Json.loads Sim.py_repr Allocate Sim.node
         [])
  = [EvRequest
       (Request POST "http://maas.example/MAAS/api/2.0/machines/?op=allocate"
          accept_json (Dict [("system_id", PStr "abc123")]))].
Proof.
  exact (lifecycle_one_request Scenario.down Json.loads Sim.py_repr Sim.node
           Allocate []).
Defined.

Lemma lifecycle_enforces_success_witness :
  fst (lifecycle_call
         (Sim.session [] (Sim.json_response 409 (PDict [])))
         Json.loads Sim.py_repr Deploy Sim.node [])
  = inl (MAASError (Msg "status=%s content=%s" [AInt 409; AStr "{}"])).
Proof.
  apply (proj1 (lifecycle_enforces_success
                  (Sim.session [] (Sim.json_response 409 (PDict [])))
                  Json.loads Sim.py_repr Sim.node Deploy [])
           (Sim.json_response 409 (PDict []))).
  - reflexivity.
  - reflexivity.
Defined.

Lemma lifecycle_returns_body_witness :
  fst (lifecycle_call (Sim.stuck "Ready") Json.loads Sim.py_repr GetDetail
         Sim.node [])
  = inr (PDict [("status_name", PStr "Ready")]).
Proof.
  apply (lifecycle_returns_body (Sim.stuck "Ready") Json.loads Sim.py_repr
           Sim.node GetDetail [] (Sim.status "Ready")).
  - reflexivity.
  - reflexivity.
  - exists "application/json; charset=utf-8". split; reflexivity.
  - vm_compute. reflexivity.
Defined.

Lemma poll_fetch_error_propagates_witness :
  fst (fst (poll (Scenario.flaky (Sim.status "Deploying")) (Sim.clock 0)
              Json.loads Sim.py_repr 2 Sim.node (PySet ["Deployed"])
              (PySet ["Deploying"]) 60 []))
  = Raised (External "ConnectionError").
Proof.
  rewrite (poll_fetch_error_propagates
             (Scenario.flaky (Sim.status "Deploying")) (Sim.clock 0)
             Json.loads Sim.py_repr Sim.node (PySet ["Deployed"])
             (PySet ["Deploying"]) 60 1 []
             (snd Scenario.flaky_after_one)
             (snd (fst Scenario.flaky_after_one))
             (External "ConnectionError")
             ltac:(vm_compute; reflexivity) ltac:(vm_compute; reflexivity)
             2 ltac:(lia)).
  reflexivity.
Defined.

Lemma poll_returns_even_late_witness :
  fst (fst (poll Scenario.deploys (Sim.clock 0) Json.loads Sim.py_repr 2
              Sim.node (PySet ["Deployed"]) (PySet ["Deploying"]) 2 []))
  = Returned
  /\ 2 < wait_total (snd (fst Scenario.deploys_after_one)).
Proof.
  assert (W : 2 < wait_total (snd (fst Scenario.deploys_after_one)))
    by (vm_compute; reflexivity).
  split; [|exact W].
  rewrite (poll_returns_even_late Scenario.deploys (Sim.clock 0) Json.loads
             Sim.py_repr Sim.node (PySet ["Deployed"]) (PySet ["Deploying"])
             2 1 [] (snd Scenario.deploys_after_one)
             (snd (fst Scenario.deploys_after_one)) (PStr "Deployed")
             ltac:(vm_compute; reflexivity) W
             ltac:(vm_compute; reflexivity) ltac:(reflexivity)
             2 ltac:(lia)).
  reflexivity.
Defined.

Lemma poll_timeout_reports_status_witness :
  fst (fst (poll (Sim.stuck "X") (Sim.clock 0) Json.loads Sim.py_repr 3
              Sim.node (PySet ["Y"]) (PySet ["X"]) 5 []))
  = Raised
      (MAASError
         (Msg ("the machine did not reach the expected status %s within "
               ++ "the time limit %ds (the last status is %s)")
              [AContainer (PySet ["Y"]); ANum 5; AVal (PStr "X")])).
Proof.
  rewrite (poll_timeout_reports_status (Sim.stuck "X") (Sim.clock 0)
             Json.loads Sim.py_repr Sim.node (PySet ["Y"]) (PySet ["X"])
             5 2 [] (snd Scenario.stuck_after_two)
             (snd (fst Scenario.stuck_after_two)) (PStr "X")
             ltac:(vm_compute; reflexivity) ltac:(vm_compute; reflexivity)
             ltac:(vm_compute; reflexivity) ltac:(reflexivity)
             ltac:(reflexivity) 3 ltac:(lia)).
  reflexivity.
Defined.




Lemma poll_negative_timeout_witness :
  sleeps (snd Scenario.impatient) = sleeps []
  /\ wait_total (snd (fst Scenario.impatient)) = 0.
Proof.
  apply (poll_negative_timeout (Sim.stuck "X") (Sim.clock 0) Json.loads
           Sim.py_repr Sim.node (PySet ["Y"]) (PySet ["X"]) (-1) 4 []
           (snd Scenario.impatient) (fst (fst Scenario.impatient))
           (snd (fst Scenario.impatient))).
  - vm_compute. reflexivity.
  - vm_compute. reflexivity.
Defined.

Lemma poll_requests_witness :
  exists k, (k <= 3)%nat
    /\ sleeps (snd Sim.stuck_after_three)
       = (sleeps [] ++ map backoff_seq (seq 0 k))%list
    /\ requests (snd Sim.stuck_after_three)
       = (requests []
          ++ repeat (Request GET
                       (url (client Sim.node) ++ "/machines/"
                        ++ py_str Sim.py_repr (system_id Sim.node) ++ "/")
                       accept_json NoData)
                    (match fst (fst Sim.stuck_after_three) with
                     | Looping => k
                     | _ => S k
                     end))%list
    /\ (fst (fst Sim.stuck_after_three) = Looping -> k = 3%nat).
Proof.
  apply (poll_requests (Sim.stuck "X") (Sim.clock 0) Json.loads Sim.py_repr
           Sim.node (PySet ["Y"]) (PySet ["X"]) 5 3 []
           (snd Sim.stuck_after_three) (fst (fst Sim.stuck_after_three))
           (snd (fst Sim.stuck_after_three))).
  vm_compute. reflexivity.
Defined.

Lemma poll_zero_timeout_sleeps_once_witness :
  exists st' tr',
    fst (fst (poll Scenario.deploys (Sim.clock 0) Json.loads Sim.py_repr 1
                Sim.node (PySet ["Y"]) (PySet ["Deploying"; "Deployed"]) 0
                [])) = Looping
    /\ (forall m, (2 <= m)%nat ->
          poll Scenario.deploys (Sim.clock 0) Json.loads Sim.py_repr m
            Sim.node (PySet ["Y"]) (PySet ["Deploying"; "Deployed"]) 0 []
          = (Raised (MAASError
                       (msg_timeout (PySet ["Y"]) 0 (PStr "Deployed"))),
             st', tr'))
    /\ sleeps tr' = (sleeps [] ++ [3%Z])%list
    /\ List.length (requests tr') = (List.length (requests []) + 2)%nat.
Proof.
  apply (poll_zero_timeout_sleeps_once Scenario.deploys (Sim.clock 0)
           Json.loads Sim.py_repr Sim.node (PySet ["Y"])
           (PySet ["Deploying"; "Deployed"]) 0 [] (PStr "Deploying")
           (PStr "Deployed")).
  - vm_compute. reflexivity.
  - reflexivity.
  - reflexivity.
  - vm_compute. reflexivity.
  - reflexivity.
  - reflexivity.
  - vm_compute. discriminate.
  - vm_compute. reflexivity.
Defined.

(** * The interpreter's arithmetic: rounding does not cross an integer *)

Lemma rne_ge (P : Z) (D : positive) (N : Z) :
  (N * Zpos D <= P)%Z -> (N <= Float64.rne P D)%Z.
Proof.
  intro H. unfold Float64.rne.
  pose proof (Z.div_mod P (Zpos D) ltac:(lia)) as E.
  pose proof (Z.mod_pos_bound P (Zpos D) ltac:(lia)) as B.
  assert (Q1 : (N <= P / Zpos D)%Z) by (apply Z.div_le_lower_bound; lia).
  destruct (2 * (P mod Zpos D) ?= Zpos D)%Z; [|lia|lia].
  destruct (Z.even (P / Zpos D)); lia.
Qed.

Lemma rne_le (P : Z) (D : positive) (N : Z) :
  (P <= N * Zpos D)%Z -> (Float64.rne P D <= N)%Z.
Proof.
  intro H. unfold Float64.rne.
  pose proof (Z.div_mod P (Zpos D) ltac:(lia)) as E.
  pose proof (Z.mod_pos_bound P (Zpos D) ltac:(lia)) as B.
  set (q := (P / Zpos D)%Z) in *. set (r := (P mod Zpos D)%Z) in *.
  assert (Q1 : (q <= N)%Z) by nia.
  assert (Q2 : (0 < r -> q + 1 <= N)%Z) by (intro; nia).
  destruct (2 * r ?= Zpos D)%Z eqn:C.
  - apply Z.compare_eq in C. destruct (Z.even q); lia.
  - lia.
  - apply Z.compare_gt_iff in C. lia.
Qed.

Lemma ilog2_lower (n d : positive) :
  (0 <= Float64.ilog2 n d)%Z ->
  (Zpos d * 2 ^ Float64.ilog2 n d <= Zpos n)%Z.
Proof.
  unfold Float64.ilog2.
  set (l := (Z.log2 (Zpos n) - Z.log2 (Zpos d))%Z).
  destruct (0 <=? l)%Z eqn:L0.
  - destruct (Zpos d * 2 ^ l <=? Zpos n)%Z eqn:C.
    + intros _. now apply Z.leb_le in C.
    + intro H.
      pose proof (Z.log2_spec (Zpos n) ltac:(lia)) as [Hn _].
      pose proof (Z.log2_spec (Zpos d) ltac:(lia)) as [_ Hd].
      pose proof (Z.log2_nonneg (Zpos d)) as Ld.
      assert (E : (2 ^ Z.log2 (Zpos n)
                   = 2 ^ (l - 1) * 2 ^ Z.succ (Z.log2 (Zpos d)))%Z).
      { rewrite <- Z.pow_add_r by lia. f_equal. unfold l. lia. }
      assert (P : (0 < 2 ^ (l - 1))%Z) by (apply Z.pow_pos_nonneg; lia).
      nia.
  - apply Z.leb_gt in L0.
    destruct (Zpos d <=? Zpos n * 2 ^ (- l))%Z; lia.
Qed.

Lemma round_pos_ge (p d : positive) (n : Z) :
  (0 <= n <= 2 ^ 53)%Z ->
  (n * Zpos d <= Zpos p)%Z ->
  fge (Float64.round_pos p d) n.
Proof.
  intros Hn H. unfold Float64.round_pos.
  set (L := Float64.ilog2 p d).
  set (e := Z.max (L - 52) (-1074)).
  destruct (0 <=? e)%Z eqn:E0.
  - apply Z.leb_le in E0.
    destruct (2 ^ 1024 <=? _)%Z; [exact I|].
    simpl. rewrite <- Zle_Qle.
    assert (P2 : (0 < 2 ^ e)%Z) by (apply Z.pow_pos_nonneg; lia).
    destruct (Z.eq_dec e 0) as [->|Ne].
    + simpl (2 ^ 0)%Z. rewrite Z.mul_1_r.
      apply rne_ge. change (Z.to_pos 1) with 1%positive.
      rewrite Pos.mul_1_r. exact H.
    + assert (EL : e = (L - 52)%Z) by lia.
      pose proof (ilog2_lower p d ltac:(fold L; lia)) as Lo. fold L in Lo.
      assert (M : (2 ^ 52
                   <= Float64.rne (Zpos p) (d * Z.to_pos (2 ^ e)))%Z).
      { apply rne_ge. rewrite Pos2Z.inj_mul, Z2Pos.id by lia.
        replace L with (52 + e)%Z in Lo by lia.
        rewrite Z.pow_add_r in Lo by lia. lia. }
      assert (G : (2 ^ 53 <= 2 ^ 52 * 2 ^ e)%Z).
      { change (2 ^ 53)%Z with (2 ^ 52 * 2 ^ 1)%Z.
        apply Z.mul_le_mono_nonneg_l; [lia|].
        apply Z.pow_le_mono_r; lia. }
      nia.
  - apply Z.leb_gt in E0. unfold fge.
    assert (P2 : (0 < 2 ^ (- e))%Z) by (apply Z.pow_pos_nonneg; lia).
    eapply Qle_trans; [|apply Qle_lteq; right; symmetry; apply Qred_correct].
    unfold Qle. cbn [Qnum Qden inject_Z].
    rewrite Z2Pos.id by lia. rewrite Z.mul_1_r.
    apply rne_ge. nia.
Qed.

Lemma round_pos_le (p d : positive) (n : Z) :
  (0 <= n < 2 ^ 53)%Z ->
  (Zpos p <= n * Zpos d)%Z ->
  fle (Float64.round_pos p d) n.
Proof.
  intros Hn H. unfold Float64.round_pos.
  set (L := Float64.ilog2 p d).
  set (e := Z.max (L - 52) (-1074)).
  destruct (0 <=? e)%Z eqn:E0.
  - apply Z.leb_le in E0.
    assert (P2 : (0 < 2 ^ e)%Z) by (apply Z.pow_pos_nonneg; lia).
    destruct (Z.eq_dec e 0) as [E|Ne].
    + rewrite E. simpl (2 ^ 0)%Z. change (Z.to_pos 1) with 1%positive.
      rewrite Pos.mul_1_r.
      pose proof (rne_le (Zpos p) d n H) as R.
      rewrite Z.mul_1_r.
      assert (B : (n < 2 ^ 1024)%Z).
      { assert (2 ^ 53 < 2 ^ 1024)%Z by (apply Z.pow_lt_mono_r; lia). lia. }
      destruct (2 ^ 1024 <=? Float64.rne (Zpos p) d)%Z eqn:O.
      * apply Z.leb_le in O. lia.
      * simpl. now rewrite <- Zle_Qle.
    + exfalso.
      assert (EL : e = (L - 52)%Z) by lia.
      pose proof (ilog2_lower p d ltac:(fold L; lia)) as Lo. fold L in Lo.
      assert (G : (2 ^ 53 <= 2 ^ L)%Z) by (apply Z.pow_le_mono_r; lia).
      nia.
  - apply Z.leb_gt in E0. unfold fle.
    assert (P2 : (0 < 2 ^ (- e))%Z) by (apply Z.pow_pos_nonneg; lia).
    eapply Qle_trans; [apply Qle_lteq; right; apply Qred_correct|].
    unfold Qle. cbn [Qnum Qden inject_Z].
    rewrite Z2Pos.id by lia. rewrite Z.mul_1_r.
    apply rne_le. nia.
Qed.

Lemma round_ge (x : Q) (n : Z) :
  (0 <= n <= 2 ^ 53)%Z -> inject_Z n <= x -> fge (Float64.round x) n.
Proof.
  intros Hn H. destruct x as [[|p|p] d]; unfold Float64.round; simpl Qnum;
    simpl Qden; unfold Qle in H; simpl in H.
  - simpl. unfold Qle. simpl. lia.
  - apply round_pos_ge; [exact Hn|lia].
  - lia.
Qed.

Lemma round_le (x : Q) (n : Z) :
  (0 <= n < 2 ^ 53)%Z -> 0 <= x -> x <= inject_Z n ->
  fle (Float64.round x) n.
Proof.
  intros Hn H0 H. destruct x as [[|p|p] d]; unfold Float64.round; simpl Qnum;
    simpl Qden; unfold Qle in H, H0; simpl in H, H0.
  - simpl. unfold Qle. simpl. lia.
  - apply round_pos_le; [exact Hn|lia].
  - lia.
Qed.

(** Rounding gives a number or an infinity. *)
Lemma round_not_nan (x : Q) : Float64.round x <> FNaN.
Proof.
  destruct x as [[|p|p] d]; unfold Float64.round; simpl Qnum; simpl Qden;
    try discriminate; unfold Float64.round_pos;
    repeat match goal with
           | |- context [if ?c then _ else _] => destruct c
           end; discriminate.
Qed.

Lemma fge_weaken (f : pyfloat) (n m : Z) :
  (m <= n)%Z -> fge f n -> fge f m.
Proof.
  intros H G. destruct f; simpl in *; try exact G.
  rewrite Zle_Qle in H. lra.
Qed.

Lemma fle_weaken (f : pyfloat) (n m : Z) :
  (n <= m)%Z -> fle f n -> fle f m.
Proof.
  intros H G. destruct f; simpl in *; try exact G.
  rewrite Zle_Qle in H. lra.
Qed.

(** A float holds a small [int] exactly. *)
Lemma to_float_small (z : Z) :
  (0 <= z < 2 ^ 53)%Z ->
  exists q, PyNum.to_float (NInt z) = inr (FFin q) /\ q == inject_Z z.
Proof.
  intro H. unfold PyNum.to_float.
  pose proof (round_ge (inject_Z z) z ltac:(lia) ltac:(lra)) as G.
  pose proof (round_le (inject_Z z) z H
                ltac:(change 0 with (inject_Z 0); rewrite <- Zle_Qle; lia)
                ltac:(lra)) as L.
  destruct (Float64.round (inject_Z z)) as [q| | |]; simpl in G, L;
    try contradiction.
  exists q. split; [reflexivity|lra].
Qed.

(** The conversion of a number that is small, read by its value. *)
Lemma to_float_value (x : pynum) :
  small x -> fge (PyNum.value x) 0 ->
  exists f, PyNum.to_float x = inr f
    /\ (forall n, fge (PyNum.value x) n -> fge f n)
    /\ (forall n, fle (PyNum.value x) n -> fle f n).
Proof.
  intros S G. destruct x as [z|f].
  - destruct (to_float_small z S) as [q [E Q]]. exists (FFin q).
    split; [exact E|]. simpl. split; intros n H; lra.
  - exists f. simpl. auto.
Qed.

Lemma float_add_ge (a b : pyfloat) (n m : Z) :
  fge a n -> fge b m -> (0 <= n)%Z -> (0 <= m)%Z ->
  fge (Float64.add a b) (Z.min (n + m) (2 ^ 53)).
Proof.
  intros A B Hn Hm.
  destruct a as [x| | |], b as [y| | |]; simpl in A, B; try contradiction;
    try exact I.
  unfold Float64.add. apply round_ge; [lia|].
  assert (M : inject_Z (Z.min (n + m) (2 ^ 53)) <= inject_Z (n + m))
    by (rewrite <- Zle_Qle; lia).
  rewrite inject_Z_plus in M. lra.
Qed.

Lemma float_add_le (a b : pyfloat) (n m : Z) :
  fge a 0 -> fge b 0 -> fle a n -> fle b m ->
  (0 <= n)%Z -> (0 <= m)%Z -> (n + m < 2 ^ 53)%Z ->
  fle (Float64.add a b) (n + m).
Proof.
  intros A0 B0 A B Hn Hm H.
  destruct a as [x| | |], b as [y| | |]; simpl in A0, B0, A, B;
    try contradiction.
  unfold Float64.add. change (inject_Z 0) with 0 in A0, B0.
  apply round_le; [lia|lra|]. rewrite inject_Z_plus. lra.
Qed.

(** Sums keep lower bounds, up to the largest integer that is safe. *)
Lemma add_at_least (a b : pynum) (n m : Z) :
  at_least a n -> at_least b m -> (0 <= n)%Z -> (0 <= m)%Z ->
  small a -> small b ->
  exists c, PyNum.add a b = inr c
    /\ at_least c (Z.min (n + m) (2 ^ 53))
    /\ (forall u v,
           at_most a u -> at_most b v -> (0 <= u)%Z -> (0 <= v)%Z ->
           (u + v < 2 ^ 53)%Z -> at_most c (u + v))
    /\ (forall z, c = NInt z ->
           exists x y, a = NInt x /\ b = NInt y /\ z = (x + y)%Z).
Proof.
  unfold at_least, at_most. intros A B Hn Hm Sa Sb.
  assert (A0 : fge (PyNum.value a) 0)
    by (apply (fge_weaken _ n); [lia|exact A]).
  assert (B0 : fge (PyNum.value b) 0)
    by (apply (fge_weaken _ m); [lia|exact B]).
  destruct a as [x|fa], b as [y|fb].
  - exists (NInt (x + y)). split; [reflexivity|].
    simpl in *. split; [|split].
    + rewrite <- Zle_Qle in *. lia.
    + intros u v U V _ _ _. rewrite <- Zle_Qle in *. lia.
    + intros z [= <-]. now exists x, y.
  - destruct (to_float_value (NInt x) Sa A0) as (f & E & G & L).
    unfold PyNum.add. rewrite E. simpl PyNum.to_float. cbv iota.
    eexists. split; [reflexivity|]. simpl PyNum.value.
    split; [|split; [|discriminate]].
    + apply float_add_ge; auto.
    + intros u v U V Hu Hv H. apply float_add_le; auto.
  - destruct (to_float_value (NInt y) Sb B0) as (f & E & G & L).
    unfold PyNum.add. simpl PyNum.to_float at 1. cbv iota. rewrite E.
    eexists. split; [reflexivity|]. simpl PyNum.value.
    split; [|split; [|discriminate]].
    + apply float_add_ge; auto.
    + intros u v U V Hu Hv H. apply float_add_le; auto.
  - exists (NFloat (Float64.add fa fb)). split; [reflexivity|].
    simpl PyNum.value in *. split; [|split; [|discriminate]].
    + apply float_add_ge; auto.
    + intros u v U V Hu Hv H. apply float_add_le; auto.
Qed.

(** The time measured for a fetch is a number, not negative; when it is an
    [int] it is the 0 that [max] was given. *)
Lemma elapsed_nonneg (t t' : Q) :
  at_least (Interp.elapsed t t') 0
  /\ (forall z, Interp.elapsed t t' = NInt z -> z = 0%Z).
Proof.
  unfold Interp.elapsed, PyNum.max0, PyNum.gt, Float64.sub.
  simpl PyNum.value. simpl Float64.neg.
  change (Float64.add (FFin t') (FFin (- t)))
    with (Float64.round (t' + - t)).
  pose proof (round_not_nan (t' + - t)) as N.
  destruct (Float64.round (t' + - t)) as [q| | |]; simpl.
  - change (inject_Z 0) with 0.
    destruct (Qle_bool 0 q) eqn:E; simpl.
    + apply Qle_bool_iff in E. unfold at_least. simpl.
      split; [exact E|discriminate].
    + unfold at_least. simpl. split; [lra|now intros z [= <-]].
  - unfold at_least. simpl. split; [exact I|discriminate].
  - unfold at_least. simpl. split; [lra|now intros z [= <-]].
  - contradiction.
Qed.

(** What the comparison with a finite timeout says of the wait. *)
Lemma gt_finite_true (w timeout : pynum) (t : Q) (n : Z) :
  finite_value timeout t -> at_least w n -> t < inject_Z n ->
  PyNum.gt w timeout = true.
Proof.
  unfold finite_value, at_least, PyNum.gt. intros T W H.
  destruct (PyNum.value timeout) as [v| | |]; try contradiction.
  destruct (PyNum.value w) as [q| | |]; simpl in *; try contradiction;
    [|reflexivity].
  destruct (Qle_bool q v) eqn:E; [|reflexivity].
  apply Qle_bool_iff in E. exfalso. lra.
Qed.

Lemma gt_finite_false (w timeout : pynum) (t : Q) (n : Z) :
  finite_value timeout t -> at_least w 0 -> t < inject_Z n ->
  (n <= 2 ^ 53)%Z ->
  PyNum.gt w timeout = false ->
  small w /\ exists q, PyNum.value w = FFin q /\ q <= t.
Proof.
  unfold finite_value, at_least, PyNum.gt. intros T W H B G.
  destruct (PyNum.value timeout) as [v| | |] eqn:V; try contradiction.
  destruct (PyNum.value w) as [q| | |] eqn:Q; simpl in *;
    try contradiction; try discriminate.
  apply negb_false_iff, Qle_bool_iff in G.
  split; [|exists q; split; [reflexivity|lra]].
  destruct w as [z|f]; [|exact I]. simpl in Q. injection Q as <-.
  simpl. change 0 with (inject_Z 0) in W. rewrite <- Zle_Qle in W.
  assert (L : inject_Z z < inject_Z n) by lra.
  rewrite <- Zlt_Qlt in L. lia.
Qed.

Lemma gt_finite_at_most (w timeout : pynum) (t : Q) (n : Z) :
  finite_value timeout t -> at_most w n -> at_least w 0 ->
  inject_Z n <= t ->
  PyNum.gt w timeout = false.
Proof.
  unfold finite_value, at_most, at_least, PyNum.gt. intros T W W0 H.
  destruct (PyNum.value timeout) as [v| | |]; try contradiction.
  destruct (PyNum.value w) as [q| | |]; simpl in *; try contradiction.
  apply negb_false_iff, Qle_bool_iff. lra.
Qed.

(** * The poll loop under the interpreter's arithmetic *)

Section InterpFacts.

Local Open Scope list_scope.

Variable session : trace -> request -> result response.
Variable clock : trace -> Q.
Variable json_loads : string -> option pyval.
Variable py_repr : pyval -> string.

Variable self : Machine.
Variables return_on continue_on : container.
Variable timeout : pynum.

Local Abbreviation fetch := (fetch_status session json_loads py_repr self).
Local Abbreviation loop :=
  (Interp.poll_loop session clock json_loads py_repr).
Local Abbreviation iter :=
  (Interp.poll_iter session clock json_loads py_repr self return_on
     continue_on timeout).
Local Abbreviation detail := (detail_request py_repr self).

Lemma interp_loop_unfold (fuel : nat) (st : Interp.locals) (tr : trace) :
  loop (S fuel) self return_on continue_on timeout st tr =
  match iter st tr with
  | Interp.Leave r tr' => (r, st, tr')
  | Interp.Again st' tr' =>
      loop fuel self return_on continue_on timeout st' tr'
  end.
Proof.
  unfold Interp.poll_iter. cbn [Interp.poll_loop].
  unfold time_time, time_sleep.
  destruct (fetch _) as [[e|status] tr2]; [reflexivity|].
  destruct (Py.contains return_on status) as [e|[|]]; try reflexivity.
  destruct (Py.contains continue_on status) as [e|[|]]; try reflexivity.
  destruct (PyNum.gt (Interp.wait_total st) timeout); [reflexivity|].
  destruct (PyNum.add _ (NInt (Interp.backoff st))) as [e|step];
    [reflexivity|].
  destruct (PyNum.add (Interp.wait_total st) step); reflexivity.
Qed.

(** What an iteration does with a status to wait on. *)
Lemma interp_iter_waiting (st : Interp.locals) (tr : trace)
    (status : pyval) :
  fst (fetch (tr ++ [EvClock (clock tr)])) = inr status ->
  Py.contains return_on status = inr false ->
  Py.contains continue_on status = inr true ->
  iter st tr =
  let tr2 := tr ++ [EvClock (clock tr); EvRequest detail] in
  if PyNum.gt (Interp.wait_total st) timeout then
    Interp.Leave
      (Raised (MAASError (Interp.msg_timeout return_on timeout status))) tr2
  else
    let tr4 := tr2 ++ [EvClock (clock tr2); EvSleep (Interp.backoff st)] in
    match PyNum.add (Interp.elapsed (clock tr) (clock tr2))
            (NInt (Interp.backoff st)) with
    | inl e => Interp.Leave (Raised e) tr4
    | inr step =>
        match PyNum.add (Interp.wait_total st) step with
        | inl e => Interp.Leave (Raised e) tr4
        | inr w =>
            Interp.Again
              (Interp.Locals w (Z.min 10 (Interp.backoff st * 2))) tr4
        end
    end.
Proof.
  intros F R C. unfold Interp.poll_iter.
  pose proof (fetch_status_trace session json_loads py_repr self
                (tr ++ [EvClock (clock tr)])) as T.
  destruct (fetch _) as [[e|s] tr2]; simpl in F, T; [discriminate|].
  injection F as ->. subst tr2. rewrite R, C, <- !app_assoc. reflexivity.
Qed.

(** A run that has left the loop is not changed by more fuel. *)
Lemma interp_loop_done (n m : nat) :
  forall (st st' : Interp.locals) (tr tr' : trace) (r : poll_status),
    loop n self return_on continue_on timeout st tr = (r, st', tr') ->
    r <> Looping ->
    loop (n + m) self return_on continue_on timeout st tr = (r, st', tr').
Proof.
  induction n as [|n IH]; intros st st' tr tr' r H R.
  - simpl in H. injection H as <- _ _. contradiction.
  - change (S n + m)%nat with (S (n + m)).
    rewrite interp_loop_unfold in *.
    destruct (iter st tr) as [r1 tr1|st1 tr1]; [exact H|].
    now apply IH.
Qed.

(** A fetch measured between two equal readings took no time. *)
Lemma elapsed_same (t t' : Q) :
  t' == t -> Interp.elapsed t t' = NFloat (FFin 0).
Proof.
  intro E. unfold Interp.elapsed, Float64.sub. simpl Float64.neg.
  change (Float64.add (FFin t') (FFin (- t)))
    with (Float64.round (t' + - t)).
  assert (N : Qnum (t' + - t) = 0%Z).
  { unfold Qeq in E. unfold Qplus, Qopp. simpl. lia. }
  unfold Float64.round. rewrite N. reflexivity.
Qed.

(** With a timeout that no wait is above (an infinity, not-a-number), a
    loop whose every fetch takes no time and answers a status to wait on
    never ends. *)
Lemma interp_loop_never_ends (fuel : nat) :
  (forall w, PyNum.gt w timeout = false) ->
  (forall tr, exists status,
      fst (fetch tr) = inr status
      /\ Py.contains return_on status = inr false
      /\ Py.contains continue_on status = inr true) ->
  (forall tr, clock (tr ++ [EvClock (clock tr); EvRequest detail])
              == clock tr) ->
  forall (st : Interp.locals) (tr : trace),
    (3 <= Interp.backoff st <= 10)%Z ->
    Interp.wait_total st = NInt 0
    \/ (exists f, Interp.wait_total st = NFloat f) ->
    fst (fst (loop fuel self return_on continue_on timeout st tr)) = Looping.
Proof.
  intros G K Z. induction fuel as [|fuel IH]; intros st tr B W;
    [reflexivity|].
  destruct (K (tr ++ [EvClock (clock tr)])) as (status & F & R & C).
  rewrite interp_loop_unfold, (interp_iter_waiting st tr status F R C).
  cbv zeta. rewrite G, (elapsed_same _ _ (Z tr)).
  assert (P53 : (10 < 2 ^ 53)%Z) by reflexivity.
  destruct (to_float_small (Interp.backoff st) ltac:(lia)) as (q & E & _).
  unfold PyNum.add at 1. simpl PyNum.to_float at 1. cbv iota.
  rewrite E.
  destruct W as [W|[f W]]; rewrite W.
  - apply IH; simpl; [lia|right; eauto].
  - apply IH; simpl; [lia|right; eauto].
Qed.

Section FiniteTimeout.

Variable t : Q.
Hypothesis timeout_finite : finite_value timeout t.
Hypothesis timeout_small : t < inject_Z (2 ^ 53).

(** A waiting iteration that does not give up goes round again, and the
    wait grows by at least the backoff. *)
Lemma interp_step (st : Interp.locals) (tr : trace) (status : pyval)
    (lb : Z) :
  fst (fetch (tr ++ [EvClock (clock tr)])) = inr status ->
  Py.contains return_on status = inr false ->
  Py.contains continue_on status = inr true ->
  PyNum.gt (Interp.wait_total st) timeout = false ->
  (3 <= Interp.backoff st <= 10)%Z ->
  (0 <= lb)%Z ->
  at_least (Interp.wait_total st) lb ->
  let tr2 := tr ++ [EvClock (clock tr); EvRequest detail] in
  let dt := Interp.elapsed (clock tr) (clock tr2) in
  exists w,
    iter st tr
    = Interp.Again (Interp.Locals w (Z.min 10 (Interp.backoff st * 2)))
        (tr2 ++ [EvClock (clock tr2); EvSleep (Interp.backoff st)])
    /\ at_least w (Z.min (lb + Interp.backoff st) (2 ^ 53))
    /\ (forall u d,
           at_most (Interp.wait_total st) u -> at_most dt d ->
           (0 <= u)%Z -> (0 <= d)%Z ->
           (u + (d + Interp.backoff st) < 2 ^ 53)%Z ->
           at_most w (u + (d + Interp.backoff st))).
Proof.
  intros F R C G B L W tr2 dt.
  assert (P53 : (10 < 2 ^ 53)%Z) by reflexivity.
  assert (W0 : at_least (Interp.wait_total st) 0)
    by (apply (fge_weaken _ lb); [lia|exact W]).
  destruct (gt_finite_false _ _ t (2 ^ 53) timeout_finite W0 timeout_small
              ltac:(lia) G) as [Sw _].
  destruct (elapsed_nonneg (clock tr) (clock tr2)) as [D0 Dz]. fold dt in D0, Dz.
  assert (Sd : small dt).
  { destruct dt as [z|f] eqn:E; [|exact I].
    rewrite (Dz z eq_refl). simpl. lia. }
  assert (Bb : at_least (NInt (Interp.backoff st)) (Interp.backoff st))
    by (unfold at_least; simpl; lra).
  assert (Sb : small (NInt (Interp.backoff st))) by (simpl; lia).
  destruct (add_at_least dt (NInt (Interp.backoff st)) 0 (Interp.backoff st)
              D0 Bb ltac:(lia) ltac:(lia) Sd Sb)
    as (step & E1 & L1 & U1 & Z1).
  rewrite Z.min_l in L1 by lia. simpl (0 + _)%Z in L1.
  assert (Ss : small step).
  { destruct step as [z|f] eqn:E; [|exact I].
    destruct (Z1 z eq_refl) as (x & y & Hx & [= <-] & ->).
    rewrite (Dz x Hx). simpl. lia. }
  destruct (add_at_least (Interp.wait_total st) step lb (Interp.backoff st)
              W L1 L ltac:(lia) Sw Ss)
    as (w & E2 & L2 & U2 & _).
  exists w. split; [|split].
  - rewrite (interp_iter_waiting st tr status F R C). cbv zeta.
    fold tr2. fold dt. now rewrite G, E1, E2.
  - exact L2.
  - intros u d Uw Ud Hu Hd H.
    apply U2; try assumption; try lia.
    apply U1; try assumption; try lia.
Qed.

(** Every check that a run from [st] and [tr] makes fetches a status to
    wait on. *)
Local Abbreviation waits_from st tr :=
  (forall n st' tr',
      loop n self return_on continue_on timeout st tr = (Looping, st', tr') ->
      exists status,
        fst (fetch (tr' ++ [EvClock (clock tr')])) = inr status
        /\ Py.contains return_on status = inr false
        /\ Py.contains continue_on status = inr true).

(** When the wait is above the timeout at a check that fetches a status to
    wait on, the loop gives up there. *)
Lemma interp_gives_up (st : Interp.locals) (tr : trace) (status : pyval) :
  fst (fetch (tr ++ [EvClock (clock tr)])) = inr status ->
  Py.contains return_on status = inr false ->
  Py.contains continue_on status = inr true ->
  PyNum.gt (Interp.wait_total st) timeout = true ->
  forall fuel,
    loop (S fuel) self return_on continue_on timeout st tr
    = (Raised (MAASError (Interp.msg_timeout return_on timeout status)), st,
       tr ++ [EvClock (clock tr); EvRequest detail]).
Proof.
  intros F R C G fuel.
  rewrite interp_loop_unfold, (interp_iter_waiting st tr status F R C).
  cbv zeta. now rewrite G.
Qed.

(** While every check fetches a status to wait on, the loop gives up after
    finitely many sleeps, at the first check that finds the wait above the
    timeout. *)
Lemma interp_loop_times_out (n : nat) :
  forall (st : Interp.locals) (tr : trace) (lb : Z),
    waits_from st tr ->
    (3 <= Interp.backoff st <= 10)%Z ->
    (0 <= lb)%Z ->
    at_least (Interp.wait_total st) (Z.min lb (2 ^ 53)) ->
    t < inject_Z (Z.min (lb + 3 * Z.of_nat n) (2 ^ 53)) ->
    exists (k : nat) (st_k : Interp.locals) (tr_k tr_end : trace)
           (status : pyval),
      loop k self return_on continue_on timeout st tr = (Looping, st_k, tr_k)
      /\ (forall j, (j < k)%nat ->
            exists st_j tr_j,
              loop j self return_on continue_on timeout st tr
              = (Looping, st_j, tr_j)
              /\ PyNum.gt (Interp.wait_total st_j) timeout = false)
      /\ PyNum.gt (Interp.wait_total st_k) timeout = true
      /\ sleeps tr_k = sleeps tr ++ backoffs (Interp.backoff st) k
      /\ (forall m, (k < m)%nat ->
            loop m self return_on continue_on timeout st tr
            = (Raised (MAASError
                         (Interp.msg_timeout return_on timeout status)),
               st_k, tr_end))
      /\ sleeps tr_end = sleeps tr_k
      /\ requests tr_end = requests tr ++ repeat detail (S k).
Proof.
  assert (P53 : (0 < 2 ^ 53)%Z) by reflexivity.
  induction n as [|n IH]; intros st tr lb Wt B L W T.
  - destruct (Wt O st tr eq_refl) as (status & F & R & C).
    assert (G : PyNum.gt (Interp.wait_total st) timeout = true).
    { eapply gt_finite_true; [exact timeout_finite|exact W|].
      replace (lb + 3 * Z.of_nat 0)%Z with lb in T by lia. exact T. }
    exists O, st, tr, (tr ++ [EvClock (clock tr); EvRequest detail]), status.
    split; [reflexivity|]. split; [intros j Hj; lia|].
    split; [exact G|]. split; [simpl; now rewrite app_nil_r|].
    split; [|split].
    + intros [|m] Hm; [lia|]. now apply interp_gives_up.
    + rewrite sleeps_app. simpl. apply app_nil_r.
    + rewrite requests_app. reflexivity.
  - destruct (Wt O st tr eq_refl) as (status & F & R & C).
    destruct (PyNum.gt (Interp.wait_total st) timeout) eqn:G.
    + exists O, st, tr, (tr ++ [EvClock (clock tr); EvRequest detail]),
        status.
      split; [reflexivity|]. split; [intros j Hj; lia|].
      split; [exact G|]. split; [simpl; now rewrite app_nil_r|].
      split; [|split].
      * intros [|m] Hm; [lia|]. now apply interp_gives_up.
      * rewrite sleeps_app. simpl. apply app_nil_r.
      * rewrite requests_app. reflexivity.
    + destruct (interp_step st tr status (Z.min lb (2 ^ 53)) F R C G B
                  ltac:(lia) W) as (w & I & Lw & _).
      set (tr2 := tr ++ [EvClock (clock tr); EvRequest detail]) in *.
      set (st1 := Interp.Locals w (Z.min 10 (Interp.backoff st * 2))) in *.
      set (tr1 := tr2 ++ [EvClock (clock tr2); EvSleep (Interp.backoff st)])
        in *.
      assert (Step : forall fuel,
                 loop (S fuel) self return_on continue_on timeout st tr
                 = loop fuel self return_on continue_on timeout st1 tr1)
        by (intro fuel; now rewrite interp_loop_unfold, I).
      assert (Wt1 : waits_from st1 tr1).
      { intros j st' tr' Hj. apply (Wt (S j) st' tr'). now rewrite Step. }
      assert (L1 : at_least (Interp.wait_total st1)
                     (Z.min (lb + 3) (2 ^ 53))).
      { apply (fge_weaken _ (Z.min (Z.min lb (2 ^ 53) + Interp.backoff st)
                               (2 ^ 53))); [lia|exact Lw]. }
      assert (T1 : t < inject_Z (Z.min (lb + 3 + 3 * Z.of_nat n) (2 ^ 53))).
      { replace (lb + 3 + 3 * Z.of_nat n)%Z
          with (lb + 3 * Z.of_nat (S n))%Z by lia. exact T. }
      destruct (IH st1 tr1 (lb + 3)%Z Wt1 ltac:(simpl; lia) ltac:(lia) L1 T1)
        as (k & st_k & tr_k & tr_end & status' & Lk & P & Gk & Sk & Gm & E
            & Rq).
      exists (S k), st_k, tr_k, tr_end, status'.
      split; [now rewrite Step|]. split; [|split; [exact Gk|]].
      * intros [|j] Hj.
        -- exists st, tr. split; [reflexivity|exact G].
        -- rewrite Step. apply P. lia.
      * split; [|split; [|split; [exact E|]]].
        -- rewrite Sk. unfold tr1, tr2. rewrite !sleeps_app. simpl.
           now rewrite app_nil_r, <- app_assoc.
        -- intros [|m] Hm; [lia|]. rewrite Step. apply Gm. lia.
        -- rewrite Rq. unfold tr1, tr2. rewrite !requests_app. simpl.
           now rewrite app_nil_r, <- app_assoc.
Qed.

(** The checks of a call with timeout 5 whose first fetch is measured to
    take at most 2: two find the wait within the timeout, the third finds it
    above. *)
Lemma interp_timeout_5 (tr : trace) :
  t == 5 ->
  waits_from Interp.poll_init tr ->
  at_most (Interp.elapsed (clock tr)
             (clock (tr ++ [EvClock (clock tr); EvRequest detail]))) 2 ->
  exists st1 tr1 st2 tr2,
    loop 1 self return_on continue_on timeout Interp.poll_init tr
    = (Looping, st1, tr1)
    /\ PyNum.gt (Interp.wait_total st1) timeout = false
    /\ loop 2 self return_on continue_on timeout Interp.poll_init tr
       = (Looping, st2, tr2)
    /\ PyNum.gt (Interp.wait_total st2) timeout = true.
Proof.
  intros T5 Wt D.
  assert (Z0 : at_least (NInt 0) 0) by (unfold at_least; simpl; lra).
  assert (M0 : at_most (NInt 0) 0) by (unfold at_most; simpl; lra).
  assert (G0 : PyNum.gt (Interp.wait_total Interp.poll_init) timeout = false).
  { apply (gt_finite_at_most _ _ t 0 timeout_finite M0 Z0).
    change (inject_Z 0) with 0. lra. }
  destruct (Wt O _ _ eq_refl) as (s0 & F0 & R0 & C0).
  destruct (interp_step Interp.poll_init tr s0 0 F0 R0 C0 G0
              ltac:(simpl; lia) ltac:(lia) Z0) as (w1 & I1 & L1 & U1).
  specialize (U1 0%Z 2%Z M0 D ltac:(lia) ltac:(lia) ltac:(reflexivity)).
  simpl in L1, U1.
  set (ta := tr ++ [EvClock (clock tr); EvRequest detail]) in *.
  set (st1 := Interp.Locals w1 6) in *.
  set (tr1 := ta ++ [EvClock (clock ta); EvSleep 3]) in *.
  assert (Step1 : forall fuel,
             loop (S fuel) self return_on continue_on timeout
               Interp.poll_init tr
             = loop fuel self return_on continue_on timeout st1 tr1)
    by (intro fuel; now rewrite interp_loop_unfold, I1).
  assert (W10 : at_least w1 0) by (apply (fge_weaken _ 3); [lia|exact L1]).
  assert (G1 : PyNum.gt (Interp.wait_total st1) timeout = false).
  { apply (gt_finite_at_most _ _ t 5 timeout_finite U1 W10).
    change (inject_Z 5) with 5. lra. }
  destruct (Wt 1%nat st1 tr1 (Step1 O)) as (s1 & F1 & R1 & C1).
  destruct (interp_step st1 tr1 s1 3 F1 R1 C1 G1 ltac:(simpl; lia)
              ltac:(lia) L1) as (w2 & I2 & L2 & _).
  simpl in L2, I2.
  assert (G2 : PyNum.gt w2 timeout = true).
  { apply (gt_finite_true _ _ t 9 timeout_finite L2).
    change (inject_Z 9) with 9. lra. }
  eexists st1, tr1, _, _.
  split; [apply (Step1 O)|]. split; [exact G1|]. split.
  - rewrite Step1, interp_loop_unfold, I2. reflexivity.
  - exact G2.
Qed.


End FiniteTimeout.

End InterpFacts.

(** * The timeout in a concrete world *)

Lemma clock_0_fetch (tr : trace) (t : Q) (r : request) :
  Sim.clock 0 (tr ++ [EvClock t; EvRequest r])%list == Sim.clock 0 tr.
Proof.
  induction tr as [|[x|x|x] tr IH]; simpl.
  - reflexivity.
  - exact IH.
  - now rewrite IH.
  - now rewrite IH.
Qed.

Lemma stuck_X_waits (tr : trace) :
  exists status,
    fst (fetch_status (Sim.stuck "X") Json.loads Sim.py_repr Sim.node tr)
    = inr status
    /\ Py.contains (PySet ["Y"]) status = inr false
    /\ Py.contains (PySet ["X"]) status = inr true.
Proof.
  exists (PStr "X"). rewrite fetch_stuck_X. repeat split.
Qed.

(** A machine stuck in a status to wait on, fetched in no time, is polled
    for ever when no wait is above the timeout. *)
Lemma stuck_X_polled_for_ever (timeout : pynum) (fuel : nat) :
  (forall w, PyNum.gt w timeout = false) ->
  fst (fst (Interp.poll (Sim.stuck "X") (Sim.clock 0) Json.loads Sim.py_repr
              fuel Sim.node (PySet ["Y"]) (PySet ["X"]) timeout []))
  = Looping.
Proof.
  intro G. unfold Interp.poll.
  apply interp_loop_never_ends.
  - exact G.
  - intro tr. apply stuck_X_waits.
  - intro tr. apply clock_0_fetch.
  - simpl. lia.
  - left. reflexivity.
Qed.

Lemma gt_infinity (w : pynum) : PyNum.gt w (NFloat FPosInf) = false.
Proof. destruct w as [z|[q| | |]]; reflexivity. Qed.

Lemma gt_nan (w : pynum) : PyNum.gt w (NFloat FNaN) = false.
Proof. destruct w as [z|[q| | |]]; reflexivity. Qed.


